(** * pykrx-openapi: the rate limiter and the field converters

    A shallow embedding of [src/pykrx_openapi/rate_limiter.py] and
    [src/pykrx_openapi/converters.py] (with the two pattern tables of
    [constants.py]), and the properties of them that the specification
    states.

    Conventions of the embedding.
    - A Python exception is a value of [exn]; a computation that may raise
      lives in [sum exn] ([inl e] is "raised e", [inr v] is "returned v").
    - [RateLimiter.wait_if_needed] mutates [self.calls] and sleeps: it is a
      computation in ExtLib's [stateT world (sum exn)], the world holding
      the limiter object and the log of the sleeps performed.
    - Instants and durations are counted in clock ticks ([Z]), so that
      subtraction and comparison are exact.  The two readings of
      [time.time()] made by one call are inputs of the model: nothing is
      assumed about the clock.
    - Strings are ASCII text ([string]); Python's [str] methods are given on
      that alphabet. *)

From Stdlib Require Import ZArith List String Ascii Bool Lia.
From Stdlib Require Import Floats.SpecFloat.
From Stdlib Require Import Sorting.Sorted DecimalString.
From ExtLib Require Import Structures.Monad Structures.MonadState Structures.MonadExc.
From ExtLib Require Import Data.Monads.StateMonad Data.Monads.EitherMonad.
Import ListNotations.
Import MonadNotation.
Local Open Scope monad_scope.
Local Open Scope Z_scope.

#[local] Existing Instance Monad_stateT.

(** ** Exceptions *)

(** The built-in exceptions that the modelled code can meet. *)
Inductive exn : Type :=
| ValueError
| OverflowError
| IndexError
| AttributeError.

Definition exn_eqb (a b : exn) : bool :=
  match a, b with
  | ValueError, ValueError
  | OverflowError, OverflowError
  | IndexError, IndexError
  | AttributeError, AttributeError => true
  | _, _ => false
  end.

(** [try: body  except (e1, ..., en): handler]: only the listed exceptions
    are handled, any other one propagates. *)
Definition try_except {A : Type} (body : sum exn A) (handled : list exn)
    (handler : sum exn A) : sum exn A :=
  match body with
  | inr v => inr v
  | inl e => if existsb (exn_eqb e) handled then handler else inl e
  end.

(** ** rate_limiter.py *)

Module RateLimiter.

(** The object: [self.max_calls], [self.period], [self.calls].  The lock
    only serialises the callers: one call runs to its end before the next
    one starts, which is what a sequence of calls models. *)
Record t : Type := mk {
  max_calls : Z;
  period : Z;
  calls : list Z
}.

(** [RateLimiter(max_calls, period)]. *)
Definition init (max_calls period : Z) : t := mk max_calls period [].

(** The limiter, and the durations passed to [time.sleep], latest last. *)
Record world : Type := mkWorld {
  self : t;
  slept : list Z
}.

Definition M : Type -> Type := stateT world (sum exn).

Definition get_calls : M (list Z) :=
  w <- get ;; ret (calls (self w)).

Definition set_calls (cs : list Z) : M unit :=
  w <- get ;;
  put (mkWorld (mk (max_calls (self w)) (period (self w)) cs) (slept w)).

Definition get_max_calls : M Z := w <- get ;; ret (max_calls (self w)).
Definition get_period : M Z := w <- get ;; ret (period (self w)).

(** [time.sleep(d)]: a negative duration is a [ValueError]. *)
Definition time_sleep (d : Z) : M unit :=
  if d <? 0 then raise ValueError
  else w <- get ;; put (mkWorld (self w) (slept w ++ [d])).

(** [l[0]]. *)
Definition first (l : list Z) : M Z :=
  match l with
  | [] => raise IndexError
  | c :: _ => ret c
  end.

(** Lines 67-77: prune, and wait when the limit is reached.  [now] is the
    reading of [time.time()] on line 67. *)
Definition throttle (now : Z) : M unit :=
  p <- get_period ;;
  cs <- get_calls ;;
  set_calls (filter (fun c => c >? now - p) cs) ;;
  cs <- get_calls ;;
  mc <- get_max_calls ;;
  if Z.of_nat (List.length cs) >=? mc then
    c0 <- first cs ;;
    let sleep_time := p - (now - c0) in
    if sleep_time >? 0 then
      time_sleep sleep_time ;;
      set_calls []
    else ret tt
  else ret tt.

(** Line 80: [self.calls.append(time.time())], [stamp] being that
    reading. *)
Definition record (stamp : Z) : M unit :=
  cs <- get_calls ;;
  set_calls (cs ++ [stamp]).

(** The two clock readings of one call. *)
Record tick : Type := mkTick {
  now_at : Z;
  stamp_at : Z
}.

Definition wait_if_needed (k : tick) : M unit :=
  throttle (now_at k) ;;
  record (stamp_at k).

(** A sequence of calls on one limiter. *)
Fixpoint wait_all (ks : list tick) : M unit :=
  match ks with
  | [] => ret tt
  | k :: ks' => wait_if_needed k ;; wait_all ks'
  end.

Definition run {A : Type} (c : M A) (w : world) : sum exn (A * world) :=
  runStateT c w.

Definition fresh (max_calls period : Z) : world :=
  mkWorld (init max_calls period) [].

(** The timestamps of [cs] inside the trailing window of length [p] at
    the instant [at_]: the test is the one of line 70. *)
Definition in_window (p at_ : Z) (cs : list Z) : list Z :=
  filter (fun c => c >? at_ - p) cs.

(** [n] calls issued with no delay: every reading of the clock is [at_]. *)
Definition burst (at_ : Z) (n : nat) : list tick :=
  repeat (mkTick at_ at_) n.

(** The timestamps that survive the pruning of line 70. *)
Definition pruned (w : world) (now : Z) : list Z :=
  filter (fun c => c >? now - period (self w)) (calls (self w)).

Definition with_calls (w : world) (cs : list Z) : world :=
  mkWorld (mk (max_calls (self w)) (period (self w)) cs) (slept w).

(** The calls of a sequence go through without an exception, and leave
    the world [w']. *)
Definition runs_to (ks : list tick) (w w' : world) : Prop :=
  run (wait_all ks) w = inr (tt, w').

End RateLimiter.

(** ** Python's [str] methods, on ASCII text *)

Module Str.

Definition code (c : ascii) : Z := Z.of_nat (nat_of_ascii c).

(** The ASCII characters that [str.isspace] accepts: tab, line feed,
    vertical tab, form feed, carriage return, the four separators
    0x1c-0x1f, and the space. *)
Definition isspace (c : ascii) : bool :=
  ((9 <=? code c) && (code c <=? 13)) || ((28 <=? code c) && (code c <=? 32)).

Definition isdigit_char (c : ascii) : bool :=
  (48 <=? code c) && (code c <=? 57).

Fixpoint forall_chars (f : ascii -> bool) (s : string) : bool :=
  match s with
  | EmptyString => true
  | String c s' => f c && forall_chars f s'
  end.

(** [s.isdigit()]: at least one character, and only digits. *)
Definition isdigit (s : string) : bool :=
  match s with
  | EmptyString => false
  | _ => forall_chars isdigit_char s
  end.

(** [len(s)]. *)
Definition len (s : string) : Z := Z.of_nat (String.length s).

Fixpoint lstrip (s : string) : string :=
  match s with
  | EmptyString => EmptyString
  | String c s' => if isspace c then lstrip s' else s
  end.

Fixpoint rstrip (s : string) : string :=
  match s with
  | EmptyString => EmptyString
  | String c s' =>
      match rstrip s' with
      | EmptyString => if isspace c then EmptyString else String c EmptyString
      | r => String c r
      end
  end.

(** [s.strip()]. *)
Definition strip (s : string) : string := rstrip (lstrip s).

(** [s.replace(old, new)] for a one-character [old]. *)
Fixpoint replace (old : ascii) (new : string) (s : string) : string :=
  match s with
  | EmptyString => EmptyString
  | String c s' =>
      if Ascii.eqb c old then String.append new (replace old new s')
      else String c (replace old new s')
  end.

(** [s.endswith(suffix)]. *)
Fixpoint endswith (s suffix : string) : bool :=
  String.eqb s suffix ||
  match s with
  | EmptyString => false
  | String _ s' => endswith s' suffix
  end.

Definition upper_char (c : ascii) : ascii :=
  if (97 <=? code c) && (code c <=? 122)
  then ascii_of_nat (nat_of_ascii c - 32)
  else c.

(** [s.upper()]. *)
Fixpoint upper (s : string) : string :=
  match s with
  | EmptyString => EmptyString
  | String c s' => String (upper_char c) (upper s')
  end.

(** [sub in s]. *)
Fixpoint contains (sub s : string) : bool :=
  String.prefix sub s ||
  match s with
  | EmptyString => false
  | String _ s' => contains sub s'
  end.

(** [x in (s1, ..., sn)] for strings. *)
Definition in_tuple (x : string) (l : list string) : bool :=
  existsb (String.eqb x) l.

End Str.

(** ** The built-ins [float], [int] and [datetime.strptime] *)

Module Py.

(** *** [float(s)] *)

(** A Python [float] is an IEEE 754 binary64 number. *)
Definition prec : Z := 53.
Definition emax : Z := 1024.

(** The characters that [float] strips around its argument (C's
    [isspace]): the separators 0x1c-0x1f are not among them. *)
Definition c_isspace (c : ascii) : bool :=
  ((9 <=? Str.code c) && (Str.code c <=? 13)) || (Str.code c =? 32).

Fixpoint c_lstrip (s : string) : string :=
  match s with
  | EmptyString => EmptyString
  | String c s' => if c_isspace c then c_lstrip s' else s
  end.

Fixpoint c_rstrip (s : string) : string :=
  match s with
  | EmptyString => EmptyString
  | String c s' =>
      match c_rstrip s' with
      | EmptyString => if c_isspace c then EmptyString else String c EmptyString
      | r => String c r
      end
  end.

(** An underscore is accepted between two digits, and dropped. [prev] is
    the character before [s] (NUL at the start). *)
Fixpoint drop_underscores (prev : ascii) (s : string) : option string :=
  match s with
  | EmptyString => if Ascii.eqb prev "_" then None else Some EmptyString
  | String c s' =>
      if Ascii.eqb c "_" then
        if Str.isdigit_char prev then drop_underscores c s' else None
      else if Ascii.eqb prev "_" && negb (Str.isdigit_char c) then None
      else option_map (String c) (drop_underscores c s')
  end.

(** The longest prefix of digits, and what follows it. *)
Fixpoint span_digits (s : string) : string * string :=
  match s with
  | EmptyString => (EmptyString, EmptyString)
  | String c s' =>
      if Str.isdigit_char c
      then let (d, r) := span_digits s' in (String c d, r)
      else (EmptyString, s)
  end.

(** The number that a string of digits writes in base ten. *)
Fixpoint digits_value (acc : Z) (s : string) : Z :=
  match s with
  | EmptyString => acc
  | String c s' => digits_value (10 * acc + (Str.code c - 48)) s'
  end.

Definition lower_char (c : ascii) : ascii :=
  if (65 <=? Str.code c) && (Str.code c <=? 90)
  then ascii_of_nat (nat_of_ascii c + 32)
  else c.

Fixpoint lower (s : string) : string :=
  match s with
  | EmptyString => EmptyString
  | String c s' => String (lower_char c) (lower s')
  end.

(** An optional sign: [true] for a minus. *)
Definition split_sign (s : string) : bool * string :=
  match s with
  | String "-" s' => (true, s')
  | String "+" s' => (false, s')
  | _ => (false, s)
  end.

(** The exponent part: [e] or [E], an optional sign, at least one digit.
    When the digits are missing nothing is consumed. *)
Definition split_exponent (s : string) : Z * string :=
  match s with
  | String c s' =>
      if Ascii.eqb c "e" || Ascii.eqb c "E" then
        let (neg, s'') := split_sign s' in
        let (ds, r) := span_digits s'' in
        match ds with
        | EmptyString => (0, s)
        | _ => ((if neg then - digits_value 0 ds else digits_value 0 ds), r)
        end
      else (0, s)
  | EmptyString => (0, s)
  end.

(** A decimal numeral [digits [. digits] [exponent]] or
    [. digits [exponent]], read as [m * 10^x]; the whole string has to be
    consumed. *)
Definition parse_decimal (s : string) : option (Z * Z) :=
  let (ip, r1) := span_digits s in
  let (fp, r2) :=
    match r1 with
    | String "." r => span_digits r
    | _ => (EmptyString, r1)
    end in
  match String.append ip fp with
  | EmptyString => None
  | ds =>
      let (x, r3) := split_exponent r2 in
      match r3 with
      | EmptyString => Some (digits_value 0 ds, x - Str.len fp)
      | _ => None
      end
  end.

(** The binary64 number nearest to [m * 10^x] (ties to even), for
    [m > 0]; beyond the largest finite number it is an infinity. *)
Definition round_decimal (neg : bool) (m : positive) (x : Z) : spec_float :=
  match x with
  | Zneg k =>
      let '(q, e, l) :=
        SFdiv_core_binary prec emax (Zpos m) 0 (Zpos (Pos.pow 10 k)) 0 in
      binary_round_aux prec emax neg q e l
  | Z0 => binary_round prec emax neg m 0
  | Zpos k => binary_round prec emax neg (m * Pos.pow 10 k) 0
  end.

Definition float_of_decimal (neg : bool) (m x : Z) : spec_float :=
  match m with
  | Zpos p => round_decimal neg p x
  | _ => S754_zero neg
  end.

(** [float(s)] for a string [s]: [ValueError] when [s] is not a float
    literal.  An out-of-range literal is an infinity, not an error. *)
Definition float (s : string) : sum exn spec_float :=
  match drop_underscores zero (c_rstrip (c_lstrip s)) with
  | None => inl ValueError
  | Some body =>
      let (neg, u) := split_sign body in
      let l := lower u in
      if String.eqb l "inf" || String.eqb l "infinity" then inr (S754_infinity neg)
      else if String.eqb l "nan" then inr S754_nan
      else
        match parse_decimal u with
        | Some (m, x) => inr (float_of_decimal neg m x)
        | None => inl ValueError
        end
  end.

(** *** [int(x)] for a float [x] *)

(** Truncation towards zero; an infinity is an [OverflowError], a NaN a
    [ValueError]. *)
Definition int (x : spec_float) : sum exn Z :=
  match x with
  | S754_zero _ => inr 0
  | S754_infinity _ => inl OverflowError
  | S754_nan => inl ValueError
  | S754_finite neg m e =>
      let a := match e with
               | Zneg k => Z.shiftr (Zpos m) (Zpos k)
               | _ => Z.shiftl (Zpos m) e
               end in
      inr (if neg then - a else a)
  end.

(** *** [datetime.strptime(s, "%Y%m%d")] *)

(** A [datetime] at midnight: the format has no time directive. *)
Record datetime : Type := mkDatetime {
  year : Z;
  month : Z;
  day : Z
}.

Definition is_leap (y : Z) : bool :=
  (y mod 4 =? 0) && (negb (y mod 100 =? 0) || (y mod 400 =? 0)).

Definition days_in_month (y m : Z) : Z :=
  if m =? 2 then (if is_leap y then 29 else 28)
  else if (m =? 4) || (m =? 6) || (m =? 9) || (m =? 11) then 30
  else 31.

Definition valid_date (y m d : Z) : bool :=
  (1 <=? y) && (y <=? 9999) && (1 <=? m) && (m <=? 12)
  && (1 <=? d) && (d <=? days_in_month y m).

(** The fields that eight digits [YYYYMMDD] write. *)
Definition date_fields (s : string) : datetime :=
  mkDatetime (digits_value 0 (String.substring 0 4 s))
             (digits_value 0 (String.substring 4 2 s))
             (digits_value 0 (String.substring 6 2 s)).

(** [datetime.strptime(s, "%Y%m%d")] for a string of eight digits, the
    only strings that [convert_field] passes.  [%Y] takes four digits;
    [%m] and [%d] take two digits each when these write a month 01-12 and
    a day 01-31 (a shorter match leaves unconverted data, a
    [ValueError]); the [datetime] constructor refuses the year 0 and a
    day past the end of the month.  On any other string the model answers
    [ValueError]. *)
Definition strptime_Ymd (s : string) : sum exn datetime :=
  if (String.length s =? 8)%nat && Str.isdigit s then
    let d := date_fields s in
    if valid_date (year d) (month d) (day d) then inr d else inl ValueError
  else inl ValueError.

End Py.

(** ** constants.py *)

Local Open Scope string_scope.

(** A [dict] is the list of its items in insertion order, the order of
    iteration. *)
Definition NUMERIC_FIELD_PATTERNS : list (string * list string) :=
  [ ("price", ["PRC"; "PRICE"; "CLSPRC"; "OPNPRC"; "HGPRC"; "LWPRC"; "PARVAL"; "SETL_PRC"]);
    ("volume", ["VOL"; "TRDVOL"; "QTY"; "OPNINT_QTY"; "SHRS"]);
    ("amount", ["AMT"; "VAL"; "TRDVAL"; "CAP"]);
    ("index", ["IDX"; "INDEX"]);
    ("rate", ["RT"; "RATE"; "FLUC_RT"]);
    ("ratio", ["RATIO"]);
    ("count", ["CNT"; "COUNT"]) ].

Definition DATE_FIELD_PATTERNS : list string := ["DD"; "DT"; "DATE"].

(** ** converters.py *)

(** What [convert_field] returns: [int | float | datetime | str | None]. *)
Inductive value : Type :=
| VNone
| VInt (n : Z)
| VFloat (x : spec_float)
| VDatetime (d : Py.datetime)
| VStr (s : string).

(** Line 20: [not value or value.strip() == "" or value.strip() == "-"]. *)
Definition is_null (v : string) : bool :=
  (v =? "") || (Str.strip v =? "") || (Str.strip v =? "-").

(** Lines 26-29, the body of the [try]: [Some d] is [return d], [None] is
    the end of the block without a [return]. *)
Definition try_date (v : string) : sum exn (option Py.datetime) :=
  if (Str.len v =? 8)%Z && Str.isdigit v then
    d <- Py.strptime_Ymd v ;; ret (Some d)
  else ret None.

(** Lines 24-32, the loop over the date patterns: [Some d] when the
    function returns the date [d], [None] when the loop is left (by
    [break], or at its end). *)
Fixpoint date_loop (patterns : list string) (field_name v : string)
    : sum exn (option Py.datetime) :=
  match patterns with
  | [] => ret None
  | pattern :: rest =>
      if Str.endswith field_name pattern then
        try_except (try_date v) [ValueError] (ret None)
      else date_loop rest field_name v
  end.

(** Lines 42-53, the body run at the first pattern found in the field
    name: it always returns. *)
Definition convert_number (pattern_type v : string) : sum exn value :=
  let clean_value := Str.strip (Str.replace "," "" v) in
  try_except
    (if Str.in_tuple pattern_type ["volume"; "count"] then
       x <- Py.float clean_value ;;
       n <- Py.int x ;;
       ret (VInt n)
     else
       x <- Py.float clean_value ;;
       ret (VFloat x))
    [ValueError; AttributeError]
    (ret (VStr v)).

(** Lines 39-53, the inner loop: [Some r] when the function returns (or
    raises) in it, [None] when no pattern of the category is found. *)
Fixpoint pattern_loop (pattern_type : string) (patterns : list string)
    (field_upper v : string) : option (sum exn value) :=
  match patterns with
  | [] => None
  | pattern :: rest =>
      if Str.contains pattern field_upper
      then Some (convert_number pattern_type v)
      else pattern_loop pattern_type rest field_upper v
  end.

(** Lines 38-53, the loop over the items of the table. *)
Fixpoint category_loop (items : list (string * list string))
    (field_upper v : string) : option (sum exn value) :=
  match items with
  | [] => None
  | (pattern_type, patterns) :: rest =>
      match pattern_loop pattern_type patterns field_upper v with
      | Some r => Some r
      | None => category_loop rest field_upper v
      end
  end.

(** Lines 35-56: the numeric rule, then the string passthrough. *)
Definition numeric_or_string (field_name v : string) : sum exn value :=
  let field_upper := Str.upper field_name in
  match category_loop NUMERIC_FIELD_PATTERNS field_upper v with
  | Some r => r
  | None => ret (VStr v)
  end.

Definition convert_field (field_name v : string) : sum exn value :=
  if is_null v then ret VNone
  else
    r <- date_loop DATE_FIELD_PATTERNS field_name v ;;
    match r with
    | Some d => ret (VDatetime d)
    | None => numeric_or_string field_name v
    end.

(** [d[k] = x] on a dict: the value of an existing key is replaced in
    place, a new key goes last. *)
Fixpoint dict_set {A : Type} (k : string) (x : A) (d : list (string * A))
    : list (string * A) :=
  match d with
  | [] => [(k, x)]
  | (k', x') :: d' =>
      if k' =? k then (k, x) :: d' else (k', x') :: dict_set k x d'
  end.

Definition keys {A : Type} (d : list (string * A)) : list string :=
  map fst d.

(** The dict comprehension of [convert_record]: the items are visited in
    order and each result is stored under its field. *)
Fixpoint convert_items (items : list (string * string))
    (acc : list (string * value)) : sum exn (list (string * value)) :=
  match items with
  | [] => ret acc
  | (field, v) :: rest =>
      x <- convert_field field v ;;
      convert_items rest (dict_set field x acc)
  end.

Definition convert_record (record : list (string * string))
    : sum exn (list (string * value)) :=
  convert_items record [].

(** The list comprehension of [convert_response]. *)
Fixpoint convert_response (data : list (list (string * string)))
    : sum exn (list (list (string * value))) :=
  match data with
  | [] => ret []
  | record :: rest =>
      r <- convert_record record ;;
      rs <- convert_response rest ;;
      ret (r :: rs)
  end.

(** The category of the first pattern of the table found in the field
    name. *)
Definition category_of (field_upper : string) : option string :=
  let hit (item : string * list string) :=
    existsb (fun pattern => Str.contains pattern field_upper) (snd item) in
  option_map fst (find hit NUMERIC_FIELD_PATTERNS).

(** The field name ends with one of the date patterns. *)
Definition has_date_suffix (field_name : string) : bool :=
  existsb (Str.endswith field_name) DATE_FIELD_PATTERNS.

(** The value is a date literal: eight characters, all of them digits,
    that write a date of the calendar. *)
Definition is_date_literal (v : string) : bool :=
  (Str.len v =? 8)%Z && Str.isdigit v
  && Py.valid_date (Py.year (Py.date_fields v)) (Py.month (Py.date_fields v))
                   (Py.day (Py.date_fields v)).

(** The value that the numeric rule parses (line 42). *)
Definition clean (v : string) : string := Str.strip (Str.replace "," "" v).

(** The categories parsed as integers (line 46). *)
Definition is_integer_category (pattern_type : string) : bool :=
  Str.in_tuple pattern_type ["volume"; "count"].

(** A result of the numeric rule or of the passthrough for the raw value
    [v]: an [int], a [float], or [v] itself. *)
Definition number_or_raw (v : string) (x : value) : Prop :=
  match x with
  | VInt _ | VFloat _ => True
  | VStr s => s = v
  | VNone | VDatetime _ => False
  end.

(** [convert_field] on every item, in order: the items of the result. *)
Fixpoint convert_each (items : list (string * string))
    : sum exn (list (string * value)) :=
  match items with
  | [] => ret []
  | (field, v) :: rest =>
      x <- convert_field field v ;;
      r <- convert_each rest ;;
      ret ((field, x) :: r)
  end.

(** Only whitespace (possibly nothing). *)
Definition all_space (s : string) : bool := Str.forall_chars Str.isspace s.

Local Close Scope string_scope.

(** ** rate_limiter.py: the decorator *)

Module Decorator.
Import RateLimiter.

(** [RateLimiter.__call__], lines 39-56: the body of [wrapper].  The
    wrapped function is any code: what it does is an input, [func], its
    returned value or the exception it raises.  That exception leaves the
    [with] block after the limiter has been updated, so the outcome of the
    call is returned beside the world rather than in place of it. *)
Definition wrapper {A : Type} (func : sum exn A) (k : tick) : M (sum exn A) :=
  p <- get_period ;;
  cs <- get_calls ;;
  set_calls (filter (fun c => c >? now_at k - p) cs) ;;
  cs <- get_calls ;;
  mc <- get_max_calls ;;
  (if Z.of_nat (List.length cs) >=? mc then
     c0 <- first cs ;;
     let sleep_time := p - (now_at k - c0) in
     if sleep_time >? 0 then
       time_sleep sleep_time ;;
       set_calls []
     else ret tt
   else ret tt) ;;
  cs <- get_calls ;;
  set_calls (cs ++ [stamp_at k]) ;;
  ret func.

End Decorator.

(** ** Clocks *)

Module Clock.
Import RateLimiter.

(** The readings of a clock that never goes back, from the instant [t0]
    on: each call reads [now_at] and then [stamp_at], and the next call
    reads later still. *)
Fixpoint chronological (t0 : Z) (ks : list tick) : Prop :=
  match ks with
  | [] => True
  | k :: ks' =>
      t0 <= now_at k /\ now_at k <= stamp_at k /\ chronological (stamp_at k) ks'
  end.

(** The history is in the order of the clock, and nothing in it is later
    than the instant [t]. *)
Definition in_order_until (t : Z) (w : world) : Prop :=
  StronglySorted Z.le (calls (self w))
  /\ Forall (fun c => c <= t) (calls (self w)).

(** Every sleep so far was positive and no longer than the period. *)
Definition sleeps_within_period (w : world) : Prop :=
  Forall (fun d => 0 < d <= period (self w)) (slept w).

End Clock.

(** ** exceptions.py *)

Module Exceptions.

(** The six exception classes of the package. *)
Inductive krx_class : Type :=
| KRXAPIError
| KRXAuthenticationError
| KRXRateLimitError
| KRXInvalidDateError
| KRXNetworkError
| KRXServerError.

(** The base class written in each [class] statement; [None] stands for
    the built-in [Exception]. *)
Definition base (c : krx_class) : option krx_class :=
  match c with
  | KRXAPIError => None
  | KRXAuthenticationError
  | KRXRateLimitError
  | KRXInvalidDateError
  | KRXNetworkError
  | KRXServerError => Some KRXAPIError
  end.

Definition class_eqb (c d : krx_class) : bool :=
  match c, d with
  | KRXAPIError, KRXAPIError
  | KRXAuthenticationError, KRXAuthenticationError
  | KRXRateLimitError, KRXRateLimitError
  | KRXInvalidDateError, KRXInvalidDateError
  | KRXNetworkError, KRXNetworkError
  | KRXServerError, KRXServerError => true
  | _, _ => false
  end.

(** [issubclass(c, d)]: the class itself, or its base (the hierarchy is
    one level deep). *)
Definition issubclass (c d : krx_class) : bool :=
  class_eqb c d ||
  match base c with
  | Some b => class_eqb b d
  | None => false
  end.

(** What a call of the client can raise: a built-in exception, or an
    exception of the package with its message. *)
Inductive error : Type :=
| Builtin (e : exn)
| KRX (c : krx_class) (message : string).


End Exceptions.

(** ** logger.py *)

Module Logger.
Local Open Scope string_scope.

(** [logging.DEBUG], [logging.INFO], and the level of a new logger. *)
Definition NOTSET : Z := 0.
Definition DEBUG : Z := 10.
Definition INFO : Z := 20.

(** A stream handler with its formatter. *)
Record handler : Type := mkHandler {
  stream : string;
  fmt : string;
  datefmt : string
}.

(** What [setup_logger] touches of a [logging.Logger]. *)
Record logger : Type := mkLogger {
  level : Z;
  handlers : list handler
}.

(** The loggers of the process, by name: [logging.getLogger(name)] gives
    the logger of that name, a new one (level [NOTSET], no handler) the
    first time.  The root logger is not a name of this map. *)
Definition registry : Type := string -> logger.

Definition no_loggers : registry := fun _ => mkLogger NOTSET [].

Definition set_logger (reg : registry) (name : string) (l : logger) : registry :=
  fun n => if n =? name then l else reg n.

(** The handler of lines 23-29. *)
Definition stdout_handler : handler :=
  mkHandler "sys.stdout"
            "%(asctime)s - %(name)s - %(levelname)s - %(message)s"
            "%Y-%m-%d %H:%M:%S".

(** [setup_logger(name, level)]: the logger it returns is the one of that
    name in the registry that results. *)
Definition setup_logger (name : string) (lvl : Z) (reg : registry) : registry :=
  let l := reg name in
  let l := mkLogger lvl (handlers l) in
  let l := match handlers l with
           | [] => mkLogger (level l) (handlers l ++ [stdout_handler])
           | _ :: _ => l
           end in
  set_logger reg name l.

(** Calls of [setup_logger] for one name, one after the other. *)
Fixpoint setup_all (name : string) (lvls : list Z) (reg : registry) : registry :=
  match lvls with
  | [] => reg
  | lvl :: rest => setup_all name rest (setup_logger name lvl reg)
  end.

End Logger.

(** ** client.py *)

Module Client.
Import Exceptions.
Local Open Scope string_scope.

Definition BASE_URL : string := "https://data-dbg.krx.co.kr/svc/apis".

(** [str(n)] for an [int]. *)
Definition str_of_int (n : Z) : string := NilZero.string_of_int (Z.to_int n).

(** [a or b] for two optional strings: [a] when it is a non-empty string,
    [b] otherwise. *)
Definition py_or (a b : option string) : option string :=
  match a with
  | Some s => if s =? "" then b else a
  | None => b
  end.

(** [not a] for an optional string. *)
Definition py_not (a : option string) : bool :=
  match a with
  | Some s => s =? ""
  | None => true
  end.

(** A [GET] of the session: [session.get(url, params=params,
    timeout=timeout)]. *)
Record request : Type := mkRequest {
  url : string;
  params : list (string * string);
  req_timeout : Z
}.

(** The body of a response as [response.json()] gives it, for the
    responses of the API: a JSON object whose [OutBlock_1], when it has
    one, is a list of records with string values.  The other items are kept
    as raw text. *)
Record payload : Type := mkPayload {
  out_block_1 : option (list (list (string * string)));
  others : list (string * string)
}.

(** A response: its status, its text, the message of the [HTTPError] that
    [raise_for_status] raises for a status from 400 to 599, and the result
    of [json()], [inl message] for a [JSONDecodeError]. *)
Record response : Type := mkResponse {
  status_code : Z;
  text : string;
  http_error : string;
  json : sum string payload
}.

(** What [session.get] does, an input of the model: it raises a
    [Timeout], a [ConnectionError] that is not a [Timeout], another
    [RequestException], each with its text [str(e)], or it returns a
    response. *)
Inductive reply : Type :=
| Timeout (message : string)
| ConnectionError (message : string)
| RequestException (message : string)
| Response (r : response).

(** The client: the key, the timeout, the limiter with the sleeps it has
    made, and the requests sent through the session, latest last.  The
    records written to the logger are not modelled. *)
Record KRXOpenAPI : Type := mkClient {
  api_key : string;
  timeout : Z;
  rate_limiter : RateLimiter.world;
  sent : list request
}.

(** The dict that [_make_request] returns: the converted [OutBlock_1] and
    the other items. *)
Record result : Type := mkResult {
  records : list (list (string * value));
  kept : list (string * string)
}.

(** [KRXOpenAPI.__init__], lines 54-69.  [env_key] is what
    [os.getenv("KRX_OPENAPI_KEY")] returns and [reg] the loggers of the
    process; the registry comes back with the logger of the package set
    up. *)
Definition init (api_key env_key : option string)
    (rate_limit per_seconds timeout : Z) (debug : bool) (reg : Logger.registry)
    : sum exn (KRXOpenAPI * Logger.registry) :=
  let key := py_or api_key env_key in
  if py_not key then inl ValueError
  else
    match key with
    | None => inl ValueError
    | Some k =>
        let log_level := if debug then Logger.DEBUG else Logger.INFO in
        inr (mkClient k timeout (RateLimiter.fresh rate_limit per_seconds) [],
             Logger.setup_logger "pykrx_openapi" log_level reg)
    end.

(** [n] digits, then what [$] accepts: the end of the string, or a
    newline that ends it. *)
Fixpoint digits_then_end (n : nat) (s : string) : bool :=
  match n with
  | O =>
      match s with
      | EmptyString => true
      | String c EmptyString => Ascii.eqb c "010"
      | _ => false
      end
  | S n' =>
      match s with
      | EmptyString => false
      | String c s' => Str.isdigit_char c && digits_then_end n' s'
      end
  end.


(** [re.match(r"^\d{8}$", bas_dd)] is a match. *)
Definition date_format_ok (bas_dd : string) : bool := digits_then_end 8 bas_dd.

(** Lines 117-144, inside the [try]: what the response becomes. *)
Definition handle_response (r : response) : sum error result :=
  if (status_code r =? 401)%Z then
    inl (KRX KRXAuthenticationError "Invalid API key (401 Unauthorized)")
  else if (status_code r =? 429)%Z then
    inl (KRX KRXRateLimitError "Rate limit exceeded (429 Too Many Requests)")
  else if ((500 <=? status_code r) && (status_code r <? 600))%Z then
    inl (KRX KRXServerError
           ("Server error: " ++ str_of_int (status_code r) ++ " - "
            ++ String.substring 0 200 (text r)))
  else if ((400 <=? status_code r) && (status_code r <? 600))%Z then
    (* raise_for_status: an HTTPError, caught as a RequestException *)
    inl (KRX KRXNetworkError ("Network error: " ++ http_error r))
  else
    match json r with
    | inl message => inl (KRX KRXAPIError ("Invalid JSON response: " ++ message))
    | inr data =>
        match out_block_1 data with
        | None => inr (mkResult [] [])
        | Some rows =>
            match convert_response rows with
            | inl e => inl (Builtin e)
            | inr converted => inr (mkResult converted (others data))
            end
        end
    end.

(** [_make_request(category, endpoint, bas_dd)].  [k] holds the clock
    readings of the limiter and [net] what the session does.  The outcome
    comes with the client as the call leaves it, also when it raises. *)
Definition _make_request (self : KRXOpenAPI) (category endpoint bas_dd : string)
    (k : RateLimiter.tick) (net : reply) : sum error result * KRXOpenAPI :=
  if negb (date_format_ok bas_dd) then
    (inl (KRX KRXInvalidDateError
            ("Invalid date format: " ++ bas_dd
             ++ ". Expected YYYYMMDD (e.g., 20240101)")),
     self)
  else
    match RateLimiter.run (RateLimiter.wait_if_needed k) (rate_limiter self) with
    | inl e =>
        (* [calls[0]] on an empty history: line 70 has pruned it already *)
        (inl (Builtin e),
         mkClient (api_key self) (timeout self)
                  (RateLimiter.with_calls (rate_limiter self)
                     (RateLimiter.pruned (rate_limiter self) (RateLimiter.now_at k)))
                  (sent self))
    | inr (_, limiter) =>
        let url := BASE_URL ++ "/" ++ category ++ "/" ++ endpoint in
        let params := [("AUTH_KEY", api_key self); ("basDd", bas_dd)] in
        let self' := mkClient (api_key self) (timeout self) limiter
                              (sent self ++ [mkRequest url params (timeout self)]) in
        match net with
        | Timeout _ =>
            (inl (KRX KRXNetworkError
                    ("Request timeout after " ++ str_of_int (timeout self) ++ "s")),
             self')
        | ConnectionError message =>
            (inl (KRX KRXNetworkError ("Connection error: " ++ message)), self')
        | RequestException message =>
            (inl (KRX KRXNetworkError ("Network error: " ++ message)), self')
        | Response r => (handle_response r, self')
        end
    end.


End Client.

(** ** constants.py: the endpoints *)

Module Endpoints.
Local Open Scope string_scope.

(** [ENDPOINTS]: path, then category and Korean name, in the order of the
    dict. *)
Definition ENDPOINTS : list (string * (string * string)) :=
  [ ("krx_dd_trd", ("idx", "KRX 시리즈 일별시세정보"));
    ("kospi_dd_trd", ("idx", "KOSPI 시리즈 일별시세정보"));
    ("kosdaq_dd_trd", ("idx", "KOSDAQ 시리즈 일별시세정보"));
    ("bon_dd_trd", ("idx", "채권지수 시세정보"));
    ("drvprod_dd_trd", ("idx", "파생상품지수 시세정보"));
    ("stk_bydd_trd", ("sto", "유가증권 일별매매정보"));
    ("ksq_bydd_trd", ("sto", "코스닥 일별매매정보"));
    ("knx_bydd_trd", ("sto", "코넥스 일별매매정보"));
    ("sw_bydd_trd", ("sto", "신주인수권증권 일별매매정보"));
    ("sr_bydd_trd", ("sto", "신주인수권증서 일별매매정보"));
    ("stk_isu_base_info", ("sto", "유가증권 종목기본정보"));
    ("ksq_isu_base_info", ("sto", "코스닥 종목기본정보"));
    ("knx_isu_base_info", ("sto", "코넥스 종목기본정보"));
    ("etf_bydd_trd", ("etp", "ETF 일별매매정보"));
    ("etn_bydd_trd", ("etp", "ETN 일별매매정보"));
    ("elw_bydd_trd", ("etp", "ELW 일별매매정보"));
    ("kts_bydd_trd", ("bon", "국채전문유통시장 일별매매정보"));
    ("bnd_bydd_trd", ("bon", "일반채권시장 일별매매정보"));
    ("smb_bydd_trd", ("bon", "소액채권시장 일별매매정보"));
    ("fut_bydd_trd", ("drv", "선물 일별매매정보 (주식선물外)"));
    ("eqsfu_stk_bydd_trd", ("drv", "주식선물(유가) 일별매매정보"));
    ("eqkfu_ksq_bydd_trd", ("drv", "주식선물(코스닥) 일별매매정보"));
    ("opt_bydd_trd", ("drv", "옵션 일별매매정보 (주식옵션外)"));
    ("eqsop_bydd_trd", ("drv", "주식옵션(유가) 일별매매정보"));
    ("eqkop_bydd_trd", ("drv", "주식옵션(코스닥) 일별매매정보"));
    ("oil_bydd_trd", ("gen", "석유시장 일별매매정보"));
    ("gold_bydd_trd", ("gen", "금시장 일별매매정보"));
    ("ets_bydd_trd", ("gen", "배출권 시장 일별매매정보"));
    ("sri_bond_info", ("esg", "사회책임투자채권 정보"));
    ("esg_etp_info", ("esg", "ESG 증권상품"));
    ("esg_index_info", ("esg", "ESG 지수")) ].

End Endpoints.

(** ** client.py: the endpoint methods *)

Module Methods.
Import Client.
Local Open Scope string_scope.

(** A bound method [client.get_...]: it takes [bas_dd], and the clock
    readings and the reply of the session as [_make_request] does. *)
Definition method : Type :=
  KRXOpenAPI -> string -> RateLimiter.tick -> reply
  -> sum Exceptions.error result * KRXOpenAPI.

Definition get_krx_daily_trade : method :=
  fun self bas_dd => _make_request self "idx" "krx_dd_trd" bas_dd.

Definition get_kospi_daily_trade : method :=
  fun self bas_dd => _make_request self "idx" "kospi_dd_trd" bas_dd.

Definition get_kosdaq_daily_trade : method :=
  fun self bas_dd => _make_request self "idx" "kosdaq_dd_trd" bas_dd.

Definition get_bond_index_daily_trade : method :=
  fun self bas_dd => _make_request self "idx" "bon_dd_trd" bas_dd.

Definition get_derivative_index_daily_trade : method :=
  fun self bas_dd => _make_request self "idx" "drvprod_dd_trd" bas_dd.

Definition get_stock_daily_trade : method :=
  fun self bas_dd => _make_request self "sto" "stk_bydd_trd" bas_dd.

Definition get_kosdaq_stock_daily_trade : method :=
  fun self bas_dd => _make_request self "sto" "ksq_bydd_trd" bas_dd.

Definition get_konex_daily_trade : method :=
  fun self bas_dd => _make_request self "sto" "knx_bydd_trd" bas_dd.

Definition get_stock_warrant_daily_trade : method :=
  fun self bas_dd => _make_request self "sto" "sw_bydd_trd" bas_dd.

Definition get_short_covering_daily_trade : method :=
  fun self bas_dd => _make_request self "sto" "sr_bydd_trd" bas_dd.

Definition get_stock_base_info : method :=
  fun self bas_dd => _make_request self "sto" "stk_isu_base_info" bas_dd.

Definition get_kosdaq_stock_base_info : method :=
  fun self bas_dd => _make_request self "sto" "ksq_isu_base_info" bas_dd.

Definition get_konex_base_info : method :=
  fun self bas_dd => _make_request self "sto" "knx_isu_base_info" bas_dd.

Definition get_etf_daily_trade : method :=
  fun self bas_dd => _make_request self "etp" "etf_bydd_trd" bas_dd.

Definition get_etn_daily_trade : method :=
  fun self bas_dd => _make_request self "etp" "etn_bydd_trd" bas_dd.

Definition get_elw_daily_trade : method :=
  fun self bas_dd => _make_request self "etp" "elw_bydd_trd" bas_dd.

Definition get_kts_bond_daily_trade : method :=
  fun self bas_dd => _make_request self "bon" "kts_bydd_trd" bas_dd.

Definition get_bond_daily_trade : method :=
  fun self bas_dd => _make_request self "bon" "bnd_bydd_trd" bas_dd.

Definition get_small_bond_daily_trade : method :=
  fun self bas_dd => _make_request self "bon" "smb_bydd_trd" bas_dd.

Definition get_futures_daily_trade : method :=
  fun self bas_dd => _make_request self "drv" "fut_bydd_trd" bas_dd.

Definition get_kospi_stock_futures_daily_trade : method :=
  fun self bas_dd => _make_request self "drv" "eqsfu_stk_bydd_trd" bas_dd.

Definition get_kosdaq_stock_futures_daily_trade : method :=
  fun self bas_dd => _make_request self "drv" "eqkfu_ksq_bydd_trd" bas_dd.

Definition get_options_daily_trade : method :=
  fun self bas_dd => _make_request self "drv" "opt_bydd_trd" bas_dd.

Definition get_kospi_stock_options_daily_trade : method :=
  fun self bas_dd => _make_request self "drv" "eqsop_bydd_trd" bas_dd.

Definition get_kosdaq_stock_options_daily_trade : method :=
  fun self bas_dd => _make_request self "drv" "eqkop_bydd_trd" bas_dd.

Definition get_oil_daily_trade : method :=
  fun self bas_dd => _make_request self "gen" "oil_bydd_trd" bas_dd.

Definition get_gold_daily_trade : method :=
  fun self bas_dd => _make_request self "gen" "gold_bydd_trd" bas_dd.

Definition get_emissions_daily_trade : method :=
  fun self bas_dd => _make_request self "gen" "ets_bydd_trd" bas_dd.

Definition get_sri_bond_info : method :=
  fun self bas_dd => _make_request self "esg" "sri_bond_info" bas_dd.

Definition get_esg_etp_info : method :=
  fun self bas_dd => _make_request self "esg" "esg_etp_info" bas_dd.

Definition get_esg_index_info : method :=
  fun self bas_dd => _make_request self "esg" "esg_index_info" bas_dd.

(** The thirty-one methods, in the order of the class. *)
Definition all_methods : list method :=
  [ get_krx_daily_trade; get_kospi_daily_trade; get_kosdaq_daily_trade;
    get_bond_index_daily_trade; get_derivative_index_daily_trade; get_stock_daily_trade;
    get_kosdaq_stock_daily_trade; get_konex_daily_trade; get_stock_warrant_daily_trade;
    get_short_covering_daily_trade; get_stock_base_info; get_kosdaq_stock_base_info;
    get_konex_base_info; get_etf_daily_trade; get_etn_daily_trade;
    get_elw_daily_trade; get_kts_bond_daily_trade; get_bond_daily_trade;
    get_small_bond_daily_trade; get_futures_daily_trade; get_kospi_stock_futures_daily_trade;
    get_kosdaq_stock_futures_daily_trade; get_options_daily_trade; get_kospi_stock_options_daily_trade;
    get_kosdaq_stock_options_daily_trade; get_oil_daily_trade; get_gold_daily_trade;
    get_emissions_daily_trade; get_sri_bond_info; get_esg_etp_info;
    get_esg_index_info ].

(** The requests that a client sends when each entry of [ENDPOINTS] is
    asked for under the category the table gives. *)
Definition table_calls : list method :=
  map (fun entry => fun self bas_dd =>
         _make_request self (fst (snd entry)) (fst entry) bas_dd)
      Endpoints.ENDPOINTS.

End Methods.

(** * Properties *)

(** ** The rate limiter *)

Module RateLimiterFacts.
Import RateLimiter.

(** What lines 67-77 compute, written without the monad. *)
Lemma run_throttle (w : world) (now : Z) :
  run (throttle now) w =
  if Z.of_nat (List.length (pruned w now)) >=? max_calls (self w) then
    match pruned w now with
    | [] => inl IndexError
    | c0 :: _ =>
        let sleep_time := period (self w) - (now - c0) in
        if sleep_time >? 0 then
          if sleep_time <? 0 then inl ValueError
          else inr (tt, mkWorld (mk (max_calls (self w)) (period (self w)) [])
                                (slept w ++ [sleep_time]))
        else inr (tt, with_calls w (pruned w now))
    end
  else inr (tt, with_calls w (pruned w now)).
Proof.
  unfold run, throttle, pruned, with_calls. destruct w as [[mc p cs] sl]. cbn.
  destruct (Z.of_nat _ >=? mc); [|reflexivity].
  destruct (filter _ cs) as [|c0 rest]; [reflexivity|]. cbn.
  destruct (p - (now - c0) >? 0); [|reflexivity].
  unfold time_sleep. destruct (p - (now - c0) <? 0); reflexivity.
Qed.

Lemma run_record (w : world) (stamp : Z) :
  run (record stamp) w = inr (tt, with_calls w (calls (self w) ++ [stamp])).
Proof. destruct w as [[mc p cs] sl]. reflexivity. Qed.

Lemma run_wait_if_needed (w : world) (k : tick) :
  run (wait_if_needed k) w =
  match run (throttle (now_at k)) w with
  | inl e => inl e
  | inr (_, w') => run (record (stamp_at k)) w'
  end.
Proof.
  unfold run, wait_if_needed. cbn.
  destruct (runStateT (throttle (now_at k)) w) as [e|[[] w']]; reflexivity.
Qed.

Lemma run_wait_all_cons (w : world) (k : tick) (ks : list tick) :
  run (wait_all (k :: ks)) w =
  match run (wait_if_needed k) w with
  | inl e => inl e
  | inr (_, w') => run (wait_all ks) w'
  end.
Proof.
  unfold run. cbn.
  destruct (runStateT (wait_if_needed k) w) as [e|[[] w']]; reflexivity.
Qed.

(** The oldest surviving timestamp is inside the window, so the wait
    computed from it is positive. *)
Lemma pruned_head_wait (w : world) (now c0 : Z) (rest : list Z) :
  pruned w now = c0 :: rest -> period (self w) - (now - c0) > 0.
Proof.
  intros H.
  assert (Hin : In c0 (pruned w now)) by (rewrite H; left; reflexivity).
  unfold pruned in Hin. apply filter_In in Hin. destruct Hin as [_ Hc]. lia.
Qed.

End RateLimiterFacts.

Module RateLimiterClaims.
Import RateLimiter RateLimiterFacts.




(** While fewer than [max_calls] calls have been made since the history
    was empty, no call sleeps, whatever the clock reads. *)
Lemma wait_all_no_sleep (ks : list tick) :
  forall w,
    Z.of_nat (List.length (calls (self w)) + List.length ks) <= max_calls (self w) ->
    exists w', runs_to ks w w' /\ slept w' = slept w.
Proof.
  unfold runs_to. induction ks as [|k ks IH]; intros w Hlen.
  - exists w. split; reflexivity.
  - cbn [List.length] in Hlen.
    rewrite run_wait_all_cons, run_wait_if_needed, run_throttle.
    assert (Hp : (List.length (pruned w (now_at k)) <= List.length (calls (self w)))%nat)
      by apply filter_length_le.
    destruct (Z.geb_spec (Z.of_nat (List.length (pruned w (now_at k))))
                         (max_calls (self w))) as [Hge|Hlt]; [lia|].
    rewrite run_record.
    match goal with |- context [run (wait_all ks) ?w1] => destruct (IH w1) as (w2 & Hrun & Hs) end.
    + cbn. rewrite length_app. cbn. lia.
    + exists w2. split; [exact Hrun | exact Hs].
Qed.



(** C4: when a call is forced to wait (the pruned history holds at least
    [max_calls] timestamps and the wait computed from the oldest one is
    positive), then right after the wait, before the new call is
    recorded, the history is the empty list: every entry is discarded,
    not only the expired one.  The call then records its timestamp
    alone. *)
Theorem forced_wait_resets_history (w : world) (now c0 : Z) :
  Z.of_nat (List.length (pruned w now)) >= max_calls (self w) ->
  hd_error (pruned w now) = Some c0 ->
  period (self w) - (now - c0) > 0 ->
  exists w',
    run (throttle now) w = inr (tt, w')
    /\ calls (self w') = []
    /\ slept w' = slept w ++ [period (self w) - (now - c0)]
    /\ forall stamp,
         run (wait_if_needed (mkTick now stamp)) w = inr (tt, with_calls w' [stamp]).
Proof.
  intros Hge Hhd Hpos.
  assert (Hthr : run (throttle now) w =
                 inr (tt, mkWorld (mk (max_calls (self w)) (period (self w)) [])
                                  (slept w ++ [period (self w) - (now - c0)]))).
  { rewrite run_throttle.
    destruct (Z.geb_spec (Z.of_nat (List.length (pruned w now))) (max_calls (self w)));
      [|lia].
    destruct (pruned w now) as [|c rest]; [discriminate|].
    cbn in Hhd. injection Hhd as ->. cbn zeta.
    destruct (Z.gtb_spec (period (self w) - (now - c0)) 0); [|lia].
    destruct (Z.ltb_spec (period (self w) - (now - c0)) 0); [lia|reflexivity]. }
  eexists. split; [exact Hthr|]. split; [reflexivity|]. split; [reflexivity|].
  intros stamp. rewrite run_wait_if_needed. cbn [now_at stamp_at].
  rewrite Hthr, run_record. reflexivity.
Qed.

Lemma forced_wait_resets_history_witness :
  exists w',
    run (throttle 2) (mkWorld (mk 2 10 [0; 1]) []) = inr (tt, w')
    /\ calls (self w') = []
    /\ slept w' = [8]
    /\ forall stamp,
         run (wait_if_needed (mkTick 2 stamp)) (mkWorld (mk 2 10 [0; 1]) [])
         = inr (tt, with_calls w' [stamp]).
Proof.
  apply (forced_wait_resets_history (mkWorld (mk 2 10 [0; 1]) []) 2 0);
    [vm_compute; discriminate | reflexivity | reflexivity].
Defined.

(** C5: on a limiter with [max_calls >= 1] and an empty history, [n <=
    max_calls] calls issued with no delay between them all return
    without a single [time.sleep]. *)
Theorem burst_never_blocks (mc p at_ : Z) (n : nat) :
  1 <= mc -> Z.of_nat n <= mc ->
  exists w', runs_to (burst at_ n) (fresh mc p) w' /\ slept w' = [].
Proof.
  intros _ Hn.
  destruct (wait_all_no_sleep (burst at_ n) (fresh mc p)) as (w' & Hrun & Hs).
  - unfold burst. rewrite repeat_length. cbn. lia.
  - exists w'. split; [exact Hrun | exact Hs].
Qed.

Lemma burst_never_blocks_witness :
  exists w', runs_to (burst 7 3) (fresh 3 10) w' /\ slept w' = [].
Proof. apply (burst_never_blocks 3 10 7 3); lia. Defined.



End RateLimiterClaims.

(** ** Strings *)

Module StrFacts.
Import Str.

Lemma lstrip_all_space (s : string) :
  lstrip s = EmptyString <-> forall_chars isspace s = true.
Proof.
  induction s as [|c s IH]; cbn.
  - tauto.
  - destruct (isspace c); cbn; [exact IH|]. split; discriminate.
Qed.

Lemma rstrip_all_space (s : string) :
  rstrip s = EmptyString <-> forall_chars isspace s = true.
Proof.
  induction s as [|c s IH]; cbn.
  - tauto.
  - destruct (rstrip s) as [|c' r].
    + destruct (isspace c); cbn.
      * split; [intros _; apply IH; reflexivity | reflexivity].
      * split; discriminate.
    + split; [discriminate|]. intros H. apply andb_true_iff in H.
      destruct H as [_ H]. apply IH in H. discriminate.
Qed.

Lemma forall_chars_lstrip (f : ascii -> bool) (s : string) :
  forall_chars f s = true -> forall_chars f (lstrip s) = true.
Proof.
  induction s as [|c s IH]; cbn; [auto|]. intros H.
  apply andb_true_iff in H. destruct H as [Hc Hs].
  destruct (isspace c); [auto|]. cbn. rewrite Hc, Hs. reflexivity.
Qed.

Lemma lstrip_space_back (s : string) :
  forall_chars isspace (lstrip s) = true -> forall_chars isspace s = true.
Proof.
  induction s as [|c s IH]; cbn; [auto|].
  destruct (isspace c) eqn:Hc; cbn; [auto|]. rewrite Hc. cbn. auto.
Qed.

(** [s.strip()] is empty exactly when [s] holds only whitespace. *)
Lemma strip_empty (s : string) :
  strip s = EmptyString <-> forall_chars isspace s = true.
Proof.
  unfold strip. rewrite rstrip_all_space. split.
  - apply lstrip_space_back.
  - apply forall_chars_lstrip.
Qed.

Lemma lstrip_app_space (l s : string) :
  forall_chars isspace l = true -> lstrip (l ++ s) = lstrip s.
Proof.
  induction l as [|c l IH]; cbn; [auto|]. intros H.
  apply andb_true_iff in H. destruct H as [Hc Hl]. rewrite Hc. auto.
Qed.

Lemma rstrip_app_space (s r : string) :
  forall_chars isspace r = true -> rstrip (s ++ r) = rstrip s.
Proof.
  intros Hr. induction s as [|c s IH]; cbn.
  - apply rstrip_all_space. exact Hr.
  - rewrite IH. reflexivity.
Qed.

Lemma digit_not_space (c : ascii) : isdigit_char c = true -> isspace c = false.
Proof.
  unfold isdigit_char, isspace. intros H. apply andb_true_iff in H.
  destruct H as [H1 H2]. apply Z.leb_le in H1. apply Z.leb_le in H2.
  apply orb_false_iff. split; apply andb_false_iff.
  - right. apply Z.leb_gt. lia.
  - right. apply Z.leb_gt. lia.
Qed.

Lemma rstrip_digits (s : string) :
  forall_chars isdigit_char s = true -> rstrip s = s.
Proof.
  induction s as [|c s IH]; cbn; [auto|]. intros H.
  apply andb_true_iff in H. destruct H as [Hc Hs]. rewrite (IH Hs).
  destruct s; [|reflexivity]. rewrite (digit_not_space c Hc). reflexivity.
Qed.

Lemma lstrip_digits (s : string) :
  forall_chars isdigit_char s = true -> lstrip s = s.
Proof.
  destruct s as [|c s]; cbn; [auto|]. intros H.
  apply andb_true_iff in H. destruct H as [Hc _].
  rewrite (digit_not_space c Hc). reflexivity.
Qed.

(** Whitespace around a run of digits is all that [strip] removes. *)
Lemma strip_padded_digits (l core r : string) :
  forall_chars isspace l = true ->
  forall_chars isspace r = true ->
  forall_chars isdigit_char core = true ->
  strip (l ++ core ++ r) = core.
Proof.
  intros Hl Hr Hd. unfold strip. rewrite (lstrip_app_space _ _ Hl).
  destruct core as [|c core].
  - cbn. apply rstrip_all_space. apply forall_chars_lstrip. exact Hr.
  - assert (Hc : isspace c = false).
    { cbn in Hd. apply andb_true_iff in Hd. apply digit_not_space. tauto. }
    cbn [append lstrip]. rewrite Hc.
    change (String c (core ++ r)) with (String c core ++ r)%string.
    rewrite (rstrip_app_space _ _ Hr). apply rstrip_digits. exact Hd.
Qed.

Lemma endswith_refl (s : string) : endswith s s = true.
Proof. destruct s; cbn [endswith]; rewrite String.eqb_refl; reflexivity. Qed.

(** [endswith] is the suffix relation. *)
Lemma endswith_iff (s suffix : string) :
  endswith s suffix = true <-> exists front, s = (front ++ suffix)%string.
Proof.
  split.
  - induction s as [|c s IH]; cbn [endswith].
    + rewrite orb_false_r. intros H. apply String.eqb_eq in H. subst.
      exists EmptyString. reflexivity.
    + intros H. apply orb_true_iff in H. destruct H as [H|H].
      * apply String.eqb_eq in H. exists EmptyString. exact H.
      * destruct (IH H) as [front ->]. exists (String c front). reflexivity.
  - intros [front ->]. induction front as [|c front IH].
    + apply endswith_refl.
    + cbn [append endswith]. rewrite IH. apply orb_true_r.
Qed.

Lemma prefix_iff (sub s : string) :
  String.prefix sub s = true <-> exists back, s = (sub ++ back)%string.
Proof.
  revert s. induction sub as [|c sub IH]; intros s.
  - split; [intros _; exists s; reflexivity | intros _; destruct s; reflexivity].
  - destruct s as [|c' s]; cbn.
    + split; [discriminate | intros [back H]; discriminate].
    + destruct (ascii_dec c c') as [->|Hne].
      * rewrite IH. split; intros [back H]; exists back.
        -- rewrite H. reflexivity.
        -- injection H. auto.
      * split; [discriminate|]. intros [back H]. injection H. congruence.
Qed.

(** [contains] is the substring relation. *)
Lemma contains_iff (sub s : string) :
  contains sub s = true
  <-> exists front back, s = (front ++ sub ++ back)%string.
Proof.
  split.
  - induction s as [|c s IH]; cbn [contains]; intros H; apply orb_true_iff in H;
      destruct H as [H|H]; try discriminate.
    + apply prefix_iff in H. destruct H as [back H].
      exists EmptyString, back. exact H.
    + apply prefix_iff in H. destruct H as [back H].
      exists EmptyString, back. exact H.
    + destruct (IH H) as (front & back & ->).
      exists (String c front), back. reflexivity.
  - intros (front & back & ->). induction front as [|c front IH].
    + cbn [append]. assert (Hp : String.prefix sub (sub ++ back) = true)
        by (apply prefix_iff; exists back; reflexivity).
      destruct (sub ++ back)%string; cbn [contains]; rewrite Hp; reflexivity.
    + cbn [append contains]. rewrite IH. apply orb_true_r.
Qed.

Lemma isdigit_forall (s : string) :
  isdigit s = true -> forall_chars isdigit_char s = true.
Proof. destruct s; [discriminate | auto]. Qed.

Lemma len_app (s t : string) : len (s ++ t) = len s + len t.
Proof.
  unfold len. induction s as [|c s IH]; cbn [append String.length]; [lia|].
  rewrite !Nat2Z.inj_succ. lia.
Qed.

Lemma len_nonneg (s : string) : 0 <= len s.
Proof. unfold len. lia. Qed.

Lemma len_zero (s : string) : len s = 0 -> s = EmptyString.
Proof. destruct s; [reflexivity|]. unfold len. cbn. lia. Qed.

End StrFacts.

(** ** The converters *)

Module ConverterFacts.

(** [float] of a string raises nothing but [ValueError]. *)
Lemma float_raises_value_error (s : string) (e : exn) :
  Py.float s = inl e -> e = ValueError.
Proof.
  unfold Py.float.
  destruct (Py.drop_underscores _ _) as [body|]; [|congruence].
  destruct (Py.split_sign body) as [neg u].
  destruct (_ || _); [discriminate|].
  destruct (String.eqb _ _); [discriminate|].
  destruct (Py.parse_decimal u) as [[m x]|]; congruence.
Qed.

(** [int] of a finite float [m * 2^e] (negated when [neg]) truncates
    towards zero: the magnitude [a] of the result is the integer part of
    [m * 2^e]. *)
Lemma int_truncates (neg : bool) (m : positive) (e : Z) :
  exists a,
    Py.int (S754_finite neg m e) = inr (if neg then - a else a)
    /\ (0 <= e -> a = Zpos m * 2 ^ e)
    /\ (e < 0 -> a * 2 ^ (- e) <= Zpos m < (a + 1) * 2 ^ (- e)).
Proof.
  destruct e as [|k|k]; cbn [Py.int].
  - exists (Zpos m). split; [reflexivity|]. split; [lia|lia].
  - exists (Z.shiftl (Zpos m) (Zpos k)). split; [reflexivity|]. split; [|lia].
    intros _. apply Z.shiftl_mul_pow2. lia.
  - exists (Z.shiftr (Zpos m) (Zpos k)). split; [reflexivity|]. split; [lia|].
    intros _. rewrite Z.shiftr_div_pow2 by lia.
    change (- Zneg k) with (Zpos k).
    assert (Hp : 0 < 2 ^ Zpos k) by (apply Z.pow_pos_nonneg; lia).
    pose proof (Z.mul_div_le (Zpos m) (2 ^ Zpos k) Hp).
    pose proof (Z.mul_succ_div_gt (Zpos m) (2 ^ Zpos k) Hp).
    lia.
Qed.

(** What the body of the numeric rule returns, by category. *)
Lemma convert_number_float (pattern_type v : string) :
  is_integer_category pattern_type = false ->
  convert_number pattern_type v =
  match Py.float (clean v) with
  | inr x => inr (VFloat x)
  | inl _ => inr (VStr v)
  end.
Proof.
  unfold is_integer_category, convert_number, clean. intros ->.
  destruct (Py.float _) as [e|x] eqn:E; [|reflexivity].
  apply float_raises_value_error in E. subst e. reflexivity.
Qed.

Lemma convert_number_int (pattern_type v : string) :
  is_integer_category pattern_type = true ->
  convert_number pattern_type v =
  match Py.float (clean v) with
  | inr (S754_infinity _) => inl OverflowError
  | inr S754_nan => inr (VStr v)
  | inr x => match Py.int x with
             | inr n => inr (VInt n)
             | inl e => inl e
             end
  | inl _ => inr (VStr v)
  end.
Proof.
  unfold is_integer_category, convert_number, clean. intros ->.
  destruct (Py.float _) as [e|x] eqn:E.
  - apply float_raises_value_error in E. subst e. reflexivity.
  - destruct x; reflexivity.
Qed.

(** The numeric rule returns a number or the raw value, never a date and
    never [None]. *)
Lemma convert_number_shape (pattern_type v : string) (x : value) :
  convert_number pattern_type v = inr x -> number_or_raw v x.
Proof.
  destruct (is_integer_category pattern_type) eqn:Hc.
  - rewrite (convert_number_int _ _ Hc).
    destruct (Py.float _) as [e|[sg|sg| |sg m ex]]; cbn;
      intros H; inversion H; subst; cbn; auto.
  - rewrite (convert_number_float _ _ Hc).
    destruct (Py.float _) as [e|y]; intros H; inversion H; subst; cbn; auto.
Qed.

(** The only exception of the numeric rule is the [OverflowError] of
    [int] on an infinity, in an integer category. *)
Lemma convert_number_raises (pattern_type v : string) (e : exn) :
  convert_number pattern_type v = inl e ->
  e = OverflowError
  /\ is_integer_category pattern_type = true
  /\ exists sg, Py.float (clean v) = inr (S754_infinity sg).
Proof.
  destruct (is_integer_category pattern_type) eqn:Hc.
  - rewrite (convert_number_int _ _ Hc).
    destruct (Py.float _) as [e'|[sg|sg| |sg m ex]]; cbn; intros H; inversion H.
    subst. repeat split. exists sg. reflexivity.
  - rewrite (convert_number_float _ _ Hc).
    destruct (Py.float _) as [e'|y]; discriminate.
Qed.

Lemma pattern_loop_spec (pattern_type : string) (patterns : list string)
    (field_upper v : string) :
  pattern_loop pattern_type patterns field_upper v =
  if existsb (fun pattern => Str.contains pattern field_upper) patterns
  then Some (convert_number pattern_type v) else None.
Proof.
  induction patterns as [|pattern rest IH]; cbn; [reflexivity|].
  destruct (Str.contains pattern field_upper); cbn; [reflexivity | exact IH].
Qed.

Lemma category_loop_spec (items : list (string * list string))
    (field_upper v : string) :
  category_loop items field_upper v =
  option_map (fun item => convert_number (fst item) v)
    (find (fun item =>
             existsb (fun pattern => Str.contains pattern field_upper) (snd item))
          items).
Proof.
  induction items as [|[pattern_type patterns] rest IH]; cbn; [reflexivity|].
  rewrite pattern_loop_spec.
  destruct (existsb _ patterns); cbn; [reflexivity | exact IH].
Qed.

(** The two nested loops return at the first pattern found: the category
    that owns it decides the parse; without any pattern the raw value is
    returned. *)
Lemma numeric_or_string_spec (field_name v : string) :
  numeric_or_string field_name v =
  match category_of (Str.upper field_name) with
  | Some pattern_type => convert_number pattern_type v
  | None => inr (VStr v)
  end.
Proof.
  unfold numeric_or_string, category_of. rewrite category_loop_spec.
  destruct (find _ NUMERIC_FIELD_PATTERNS); reflexivity.
Qed.

Lemma numeric_or_string_shape (field_name v : string) (x : value) :
  numeric_or_string field_name v = inr x -> number_or_raw v x.
Proof.
  rewrite numeric_or_string_spec.
  destruct (category_of _) as [pattern_type|].
  - apply convert_number_shape.
  - intros H. inversion H. reflexivity.
Qed.

(** The date loop: the first pattern that ends the field name runs the
    parse and leaves the loop; the later patterns are not looked at. *)
Lemma date_loop_spec (patterns : list string) (field_name v : string) :
  date_loop patterns field_name v =
  if existsb (Str.endswith field_name) patterns
  then try_except (try_date v) [ValueError] (inr None)
  else inr None.
Proof.
  induction patterns as [|pattern rest IH]; cbn; [reflexivity|].
  destruct (Str.endswith field_name pattern); cbn; [reflexivity | exact IH].
Qed.

Lemma strptime_Ymd_spec (v : string) :
  Py.strptime_Ymd v =
  if is_date_literal v then inr (Py.date_fields v) else inl ValueError.
Proof.
  unfold Py.strptime_Ymd, is_date_literal, Str.len.
  replace (Z.of_nat (String.length v) =? 8) with (String.length v =? 8)%nat.
  - destruct ((String.length v =? 8)%nat && Str.isdigit v); reflexivity.
  - destruct (Nat.eqb_spec (String.length v) 8) as [->|Hn]; [reflexivity|].
    symmetry. apply Z.eqb_neq. lia.
Qed.

(** The guarded parse of lines 26-29 with its handler: a date for a date
    literal, nothing otherwise, and no exception. *)
Lemma try_date_spec (v : string) :
  try_except (try_date v) [ValueError] (inr None) =
  inr (if is_date_literal v then Some (Py.date_fields v) else None).
Proof.
  unfold try_date. rewrite strptime_Ymd_spec. unfold is_date_literal.
  destruct ((Str.len v =? 8) && Str.isdigit v); cbn; [|reflexivity].
  destruct (Py.valid_date _ _ _); reflexivity.
Qed.

(** [convert_field], rule by rule. *)
Lemma convert_field_spec (field_name v : string) :
  convert_field field_name v =
  if is_null v then inr VNone
  else if has_date_suffix field_name && is_date_literal v
       then inr (VDatetime (Py.date_fields v))
       else numeric_or_string field_name v.
Proof.
  unfold convert_field, has_date_suffix. destruct (is_null v); [reflexivity|].
  rewrite date_loop_spec.
  destruct (existsb _ DATE_FIELD_PATTERNS); cbn [andb]; [|reflexivity].
  rewrite try_date_spec. destruct (is_date_literal v); reflexivity.
Qed.

End ConverterFacts.

Module ConverterClaims.
Import ConverterFacts.
Local Open Scope string_scope.

Lemma is_null_iff (v : string) :
  is_null v = true <-> v = "" \/ all_space v = true \/ Str.strip v = "-".
Proof.
  unfold is_null, all_space. rewrite !orb_true_iff, !String.eqb_eq.
  rewrite StrFacts.strip_empty. tauto.
Qed.



Lemma is_date_literal_iff (v : string) :
  is_date_literal v = true
  <-> Str.len v = 8 /\ Str.isdigit v = true
      /\ Py.valid_date (Py.year (Py.date_fields v)) (Py.month (Py.date_fields v))
                        (Py.day (Py.date_fields v)) = true.
Proof.
  unfold is_date_literal. rewrite !andb_true_iff, Z.eqb_eq. tauto.
Qed.



(** C10: for a field name that ends with a date pattern, a value made of
    a valid eight-digit date with whitespace before or after it is never
    converted to a date: the length and digit tests see the raw value,
    which is stripped only inside the numeric rule, so the result is the
    one of the numeric and string rules. *)
Theorem padded_date_not_converted (f l core r : string) :
  (exists pattern, In pattern DATE_FIELD_PATTERNS /\ Str.endswith f pattern = true) ->
  is_date_literal core = true ->
  all_space l = true -> all_space r = true ->
  l <> "" \/ r <> "" ->
  (forall d : Py.datetime, convert_field f (l ++ core ++ r) <> inr (VDatetime d))
  /\ convert_field f (l ++ core ++ r) = numeric_or_string f (l ++ core ++ r).
Proof.
  intros _ Hcore Hl Hr Hpad.
  apply is_date_literal_iff in Hcore. destruct Hcore as (Hlen & Hdig & _).
  assert (Hnull : is_null (l ++ core ++ r) = false).
  { apply not_true_is_false. intros H. apply is_null_iff in H.
    rewrite <- StrFacts.strip_empty in H.
    rewrite (StrFacts.strip_padded_digits l core r Hl Hr
               (StrFacts.isdigit_forall _ Hdig)) in H.
    destruct H as [H|[H|H]].
    - apply (f_equal Str.len) in H. rewrite !StrFacts.len_app in H.
      pose proof (StrFacts.len_nonneg l). pose proof (StrFacts.len_nonneg r).
      cbn in H. lia.
    - subst core. discriminate.
    - subst core. discriminate. }
  assert (Hlit : is_date_literal (l ++ core ++ r) = false).
  { unfold is_date_literal.
    replace (Str.len (l ++ core ++ r) =? 8)%Z with false; [reflexivity|].
    symmetry. apply Z.eqb_neq. rewrite !StrFacts.len_app, Hlen.
    pose proof (StrFacts.len_nonneg l). pose proof (StrFacts.len_nonneg r).
    destruct Hpad as [Hne|Hne].
    - assert (Str.len l <> 0) by (intros Hz; apply Hne, StrFacts.len_zero, Hz). lia.
    - assert (Str.len r <> 0) by (intros Hz; apply Hne, StrFacts.len_zero, Hz). lia. }
  assert (Heq : convert_field f (l ++ core ++ r) = numeric_or_string f (l ++ core ++ r)).
  { rewrite convert_field_spec, Hnull, Hlit, andb_false_r. reflexivity. }
  split; [|exact Heq].
  intros d H. rewrite Heq in H. apply numeric_or_string_shape in H. destruct H.
Qed.

Lemma padded_date_not_converted_witness :
  (forall d : Py.datetime, convert_field "BAS_DD" (" " ++ "20240101" ++ "") <> inr (VDatetime d))
  /\ convert_field "BAS_DD" (" " ++ "20240101" ++ "")
     = numeric_or_string "BAS_DD" (" " ++ "20240101" ++ "").
Proof.
  apply (padded_date_not_converted "BAS_DD" " " "20240101" "").
  - exists "DD". split; [left; reflexivity | reflexivity].
  - reflexivity.
  - reflexivity.
  - reflexivity.
  - left. discriminate.
Defined.

(** The numeric rule on a field of a numeric category, for a value that
    the null test and the date rule let through: a float category gives
    the float or, when the parse fails, the raw value; an integer
    category gives the truncated float or the raw value, except on an
    infinity, where [int] raises [OverflowError] past the handler. *)
Lemma numeric_rule_spec (f v pattern_type : string) :
  is_null v = false ->
  has_date_suffix f && is_date_literal v = false ->
  category_of (Str.upper f) = Some pattern_type ->
  convert_field f v =
  if is_integer_category pattern_type then
    match Py.float (clean v) with
    | inr (S754_infinity _) => inl OverflowError
    | inr S754_nan => inr (VStr v)
    | inr x => match Py.int x with
               | inr n => inr (VInt n)
               | inl e => inl e
               end
    | inl _ => inr (VStr v)
    end
  else
    match Py.float (clean v) with
    | inr x => inr (VFloat x)
    | inl _ => inr (VStr v)
    end.
Proof.
  intros Hn Hd Hc. rewrite convert_field_spec, Hn, Hd, numeric_or_string_spec, Hc.
  destruct (is_integer_category pattern_type) eqn:Hi.
  - apply convert_number_int, Hi.
  - apply convert_number_float, Hi.
Qed.

(** An infinity in a field of an integer category: the call raises. *)
Lemma infinity_in_integer_field (f v pattern_type : string) (sg : bool) :
  is_null v = false ->
  has_date_suffix f && is_date_literal v = false ->
  category_of (Str.upper f) = Some pattern_type ->
  is_integer_category pattern_type = true ->
  Py.float (clean v) = inr (S754_infinity sg) ->
  convert_field f v = inl OverflowError.
Proof.
  intros Hn Hd Hc Hi Hx.
  rewrite (numeric_rule_spec f v pattern_type Hn Hd Hc), Hi, Hx. reflexivity.
Qed.

(** An exception leaves [convert_field] in one case only. *)
Lemma convert_field_raises (f v : string) (e : exn) :
  convert_field f v = inl e ->
  e = OverflowError
  /\ (exists pattern_type,
        category_of (Str.upper f) = Some pattern_type
        /\ is_integer_category pattern_type = true)
  /\ exists sg, Py.float (clean v) = inr (S754_infinity sg).
Proof.
  rewrite convert_field_spec. destruct (is_null v); [discriminate|].
  destruct (has_date_suffix f && is_date_literal v); [discriminate|].
  rewrite numeric_or_string_spec.
  destruct (category_of (Str.upper f)) as [pattern_type|]; [|discriminate].
  intros H. apply convert_number_raises in H. destruct H as (He & Hi & Hx).
  split; [exact He|]. split; [|exact Hx]. exists pattern_type. auto.
Qed.

(** C3: the numeric rule on the volume field [ACC_TRDVOL] and the
    out-of-range literal [1e999].  The field is in the category
    [volume], the value is not null and not a date, its float is the
    infinity, and [int] of it raises [OverflowError], which the handler
    of line 51 does not catch: the call returns neither an integer nor
    the raw value. *)
Theorem volume_overflow_escapes :
  category_of (Str.upper "ACC_TRDVOL") = Some "volume"
  /\ is_null "1e999" = false
  /\ has_date_suffix "ACC_TRDVOL" = false
  /\ Py.float (clean "1e999") = inr (S754_infinity false)
  /\ convert_field "ACC_TRDVOL" "1e999" = inl OverflowError.
Proof. vm_compute. repeat split. Qed.

(** C7: [convert_field] can raise: on the volume field [ACC_TRDVOL] the
    value ["inf"] is an [OverflowError], not a value. *)
Theorem convert_field_raises_on_inf :
  convert_field "ACC_TRDVOL" "inf" = inl OverflowError.
Proof. vm_compute. reflexivity. Qed.

Lemma dict_set_new {A : Type} (k : string) (x : A) (d : list (string * A)) :
  ~ In k (keys d) -> dict_set k x d = (d ++ [(k, x)])%list.
Proof.
  induction d as [|[k' x'] d IH]; cbn; [reflexivity|]. intros Hk.
  destruct (String.eqb_spec k' k) as [->|Hne]; [tauto|].
  rewrite IH; [reflexivity | tauto].
Qed.

Lemma convert_items_each (items : list (string * string)) :
  forall acc,
    NoDup (keys acc ++ keys items) ->
    convert_items items acc =
    match convert_each items with
    | inl e => inl e
    | inr r => inr (acc ++ r)%list
    end.
Proof.
  induction items as [|[f v] rest IH]; intros acc Hnd; cbn.
  - rewrite app_nil_r. reflexivity.
  - destruct (convert_field f v) as [e|x]; [reflexivity|].
    cbn in Hnd. rewrite dict_set_new.
    + rewrite IH.
      * destruct (convert_each rest) as [e|r]; [reflexivity|].
        rewrite <- app_assoc. reflexivity.
      * unfold keys in *. rewrite map_app, <- app_assoc. exact Hnd.
    + apply NoDup_remove_2 in Hnd. intros Hin. apply Hnd, in_or_app. auto.
Qed.

(** On a dict (its keys are distinct), [convert_record] is [convert_field]
    on every item, in order. *)
Lemma convert_record_each (record : list (string * string)) :
  NoDup (keys record) -> convert_record record = convert_each record.
Proof.
  intros Hnd. unfold convert_record. rewrite convert_items_each; [|exact Hnd].
  destruct (convert_each record); reflexivity.
Qed.

(** When it returns, the record has the fields of the input, each with
    the conversion of its value. *)
Lemma convert_each_inr (items : list (string * string)) :
  forall out,
    convert_each items = inr out ->
    keys out = keys items
    /\ Forall2 (fun item res => fst res = fst item
                                /\ convert_field (fst item) (snd item) = inr (snd res))
               items out.
Proof.
  induction items as [|[f v] rest IH]; cbn; intros out H.
  - inversion H. split; [reflexivity | constructor].
  - destruct (convert_field f v) as [e|x] eqn:Hx; [discriminate|].
    destruct (convert_each rest) as [e|r]; [discriminate|].
    inversion H. subst out. destruct (IH r eq_refl) as [Hk Hall].
    split; [unfold keys in *; cbn; f_equal; exact Hk|].
    constructor; [cbn; auto | exact Hall].
Qed.

(** It returns when no field raises. *)
Lemma convert_each_returns (items : list (string * string)) :
  (forall f v, In (f, v) items -> exists x, convert_field f v = inr x) ->
  exists out, convert_each items = inr out.
Proof.
  induction items as [|[f v] rest IH]; cbn; intros Hall.
  - eexists. reflexivity.
  - destruct (Hall f v) as [x Hx]; [auto|]. rewrite Hx.
    destruct IH as [r Hr]; [intros; apply Hall; auto|]. rewrite Hr.
    eexists. reflexivity.
Qed.

(** When it returns, the response has one record for each input record,
    in the same order. *)
Lemma convert_response_inr (data : list (list (string * string))) :
  forall outs,
    convert_response data = inr outs ->
    List.length outs = List.length data
    /\ Forall2 (fun record out => convert_record record = inr out) data outs.
Proof.
  induction data as [|record rest IH]; cbn; intros outs H.
  - inversion H. split; [reflexivity | constructor].
  - destruct (convert_record record) as [e|r] eqn:Hr; [discriminate|].
    destruct (convert_response rest) as [e|rs]; [discriminate|].
    inversion H. subst outs. destruct (IH rs eq_refl) as [Hl Hall].
    split; [cbn; rewrite Hl; reflexivity|]. constructor; assumption.
Qed.

Lemma convert_response_returns (data : list (list (string * string))) :
  (forall record, In record data -> exists out, convert_record record = inr out) ->
  exists outs, convert_response data = inr outs.
Proof.
  induction data as [|record rest IH]; cbn; intros Hall.
  - eexists. reflexivity.
  - destruct (Hall record) as [r Hr]; [auto|]. rewrite Hr.
    destruct IH as [rs Hrs]; [intros; apply Hall; auto|]. rewrite Hrs.
    eexists. reflexivity.
Qed.

(** C9: [convert_record] and [convert_response] do not always produce an
    output: a record with the volume field [ACC_TRDVOL] at ["inf"] makes
    both raise [OverflowError], so no record with the input's fields and
    no list of the input's length comes out. *)
Theorem record_and_response_raise :
  convert_record [("BAS_DD", "20240101"); ("ACC_TRDVOL", "inf")] = inl OverflowError
  /\ convert_response [[("IDX_NM", "KOSPI")];
                       [("BAS_DD", "20240101"); ("ACC_TRDVOL", "inf")]]
     = inl OverflowError.
Proof. vm_compute. split; reflexivity. Qed.

End ConverterClaims.

(** ** Runs on concrete inputs *)

Module Examples.
Import RateLimiter.
Local Open Scope string_scope.

(** Two calls fill the window of a limiter [(2, 10)]; the third one,
    arriving at 2, sleeps 8 ticks, clears the history and records its own
    timestamp. *)
Example third_call_waits :
  run (wait_all [mkTick 0 0; mkTick 1 1; mkTick 2 10]) (fresh 2 10)
  = inr (tt, mkWorld (mk 2 10 [10]) [8]).
Proof. reflexivity. Qed.

(** After the reset a fourth call goes through at once.  The history
    holds two timestamps, while three of the four calls granted so far
    (at 1, 10 and 10) lie in the window that ends at 10. *)
Example burst_after_reset :
  run (wait_all [mkTick 0 0; mkTick 1 1; mkTick 2 10; mkTick 10 10]) (fresh 2 10)
  = inr (tt, mkWorld (mk 2 10 [10; 10]) [8])
  /\ in_window 10 10 [10; 10] = [10; 10]
  /\ in_window 10 10 [0; 1; 10; 10] = [1; 10; 10].
Proof. repeat split. Qed.

(** With [max_calls = 0] the limit is reached on an empty history and
    [calls[0]] is an [IndexError]. *)
Example zero_max_calls_raises :
  run (wait_if_needed (mkTick 0 0)) (fresh 0 10) = inl IndexError.
Proof. reflexivity. Qed.

Example date_field :
  convert_field "BAS_DD" "20240101" = inr (VDatetime (Py.mkDatetime 2024 1 1)).
Proof. vm_compute. reflexivity. Qed.

Example invalid_date_is_kept :
  convert_field "BAS_DD" "invalid" = inr (VStr "invalid").
Proof. vm_compute. reflexivity. Qed.

Example no_such_day_is_kept :
  convert_field "TRD_DD" "20240230" = inr (VStr "20240230").
Proof. vm_compute. reflexivity. Qed.

(** 1234567.89 is 5302428712241725 * 2^-32 in binary64. *)
Example price_with_commas :
  convert_field "CLSPRC_IDX" "1,234,567.89"
  = inr (VFloat (S754_finite false 5302428712241725 (-32))).
Proof. vm_compute. reflexivity. Qed.

Example volume_with_commas :
  convert_field "ACC_TRDVOL" "1,234,567" = inr (VInt 1234567).
Proof. vm_compute. reflexivity. Qed.

Example volume_is_truncated :
  convert_field "ACC_TRDVOL" "123456.0" = inr (VInt 123456)
  /\ convert_field "ACC_TRDVOL" "123456.9" = inr (VInt 123456)
  /\ convert_field "ACC_TRDVOL" "-7.9" = inr (VInt (-7)).
Proof. vm_compute. repeat split. Qed.

Example volume_nan_is_kept :
  convert_field "ACC_TRDVOL" "nan" = inr (VStr "nan").
Proof. vm_compute. reflexivity. Qed.

Example amount_field :
  category_of (Str.upper "ACC_TRDVAL") = Some "amount".
Proof. vm_compute. reflexivity. Qed.

Example not_a_number_is_kept :
  convert_field "CLSPRC_IDX" "not_a_number" = inr (VStr "not_a_number").
Proof. vm_compute. reflexivity. Qed.

Example name_field_is_kept :
  convert_field "IDX_NM" "KOSPI" = inr (VStr "KOSPI").
Proof. vm_compute. reflexivity. Qed.

Example null_values :
  convert_field "BAS_DD" "" = inr VNone
  /\ convert_field "CLSPRC_IDX" "  " = inr VNone
  /\ convert_field "CLSPRC_IDX" "-" = inr VNone.
Proof. vm_compute. repeat split. Qed.

(** A padded date in a price field is stripped by the numeric rule and
    comes out as a float. *)
Example padded_date_in_price_field :
  convert_field "PRC_DT" " 20240101 "
  = inr (VFloat (S754_finite false 5433160741421056 (-28))).
Proof. vm_compute. reflexivity. Qed.

Example record_scenario :
  convert_record
    [("BAS_DD", "20240101"); ("IDX_NM", "KOSPI"); ("CLSPRC_IDX", "2655.50")]
  = inr [("BAS_DD", VDatetime (Py.mkDatetime 2024 1 1));
         ("IDX_NM", VStr "KOSPI");
         ("CLSPRC_IDX", VFloat (S754_finite false 5839506255118336 (-41)))].
Proof. vm_compute. reflexivity. Qed.

Example empty_record : convert_record [] = inr [].
Proof. reflexivity. Qed.

Example empty_response : convert_response [] = inr [].
Proof. reflexivity. Qed.

End Examples.

(** ** More on the rate limiter *)

Module RateLimiterMore.
Import RateLimiter RateLimiterFacts Clock.




Lemma filter_none {A : Type} (f : A -> bool) (l : list A) :
  Forall (fun x => f x = false) l -> filter f l = [].
Proof.
  induction 1 as [|x l Hx _ IH]; cbn; [reflexivity|]. rewrite Hx, IH. reflexivity.
Qed.

(** A call below the limit: no sleep, the pruned history and the new
    timestamp. *)
Lemma run_below_limit (w : world) (k : tick) :
  Z.of_nat (List.length (pruned w (now_at k))) < max_calls (self w) ->
  run (wait_if_needed k) w
  = inr (tt, with_calls w (pruned w (now_at k) ++ [stamp_at k])).
Proof.
  intros Hlt. rewrite run_wait_if_needed, run_throttle.
  destruct (Z.geb_spec (Z.of_nat (List.length (pruned w (now_at k))))
                       (max_calls (self w))); [lia|].
  rewrite run_record. reflexivity.
Qed.

(** A call at the limit: the wait computed from the oldest entry, then the
    new timestamp alone. *)
Lemma run_at_limit (w : world) (k : tick) (c0 : Z) (rest : list Z) :
  max_calls (self w) <= Z.of_nat (List.length (pruned w (now_at k))) ->
  pruned w (now_at k) = c0 :: rest ->
  run (wait_if_needed k) w
  = inr (tt, mkWorld (mk (max_calls (self w)) (period (self w)) [stamp_at k])
                     (slept w ++ [period (self w) - (now_at k - c0)])).
Proof.
  intros Hge Hp. pose proof (pruned_head_wait _ _ _ _ Hp) as Hpos.
  rewrite run_wait_if_needed, run_throttle.
  destruct (Z.geb_spec (Z.of_nat (List.length (pruned w (now_at k))))
                       (max_calls (self w))); [|lia].
  rewrite Hp. cbn zeta.
  destruct (Z.gtb_spec (period (self w) - (now_at k - c0)) 0); [|lia].
  destruct (Z.ltb_spec (period (self w) - (now_at k - c0)) 0); [lia|].
  rewrite run_record. reflexivity.
Qed.

Lemma run_at_limit_empty (w : world) (k : tick) :
  max_calls (self w) <= Z.of_nat (List.length (pruned w (now_at k))) ->
  pruned w (now_at k) = [] ->
  run (wait_if_needed k) w = inl IndexError.
Proof.
  intros Hge Hp. rewrite run_wait_if_needed, run_throttle.
  destruct (Z.geb_spec (Z.of_nat (List.length (pruned w (now_at k))))
                       (max_calls (self w))); [|lia].
  rewrite Hp. reflexivity.
Qed.

Lemma sorted_filter (f : Z -> bool) (l : list Z) :
  StronglySorted Z.le l -> StronglySorted Z.le (filter f l).
Proof.
  induction 1 as [|x l Hs IH Hx]; cbn; [constructor|].
  destruct (f x); [|exact IH]. constructor; [exact IH|].
  apply Forall_forall. intros y Hy. apply filter_In in Hy.
  rewrite Forall_forall in Hx. apply Hx. tauto.
Qed.

Lemma sorted_snoc (l : list Z) (x : Z) :
  StronglySorted Z.le l -> Forall (fun c => c <= x) l ->
  StronglySorted Z.le (l ++ [x]).
Proof.
  induction 1 as [|y l Hs IH Hy]; intros Hall; cbn.
  - constructor; constructor.
  - inversion Hall; subst. constructor; [apply IH; assumption|].
    apply Forall_app. split; [exact Hy|]. constructor; [assumption | constructor].
Qed.

Lemma forall_filter (P : Z -> Prop) (f : Z -> bool) (l : list Z) :
  Forall P l -> Forall P (filter f l).
Proof.
  rewrite !Forall_forall. intros H x Hx. apply filter_In in Hx. apply H. tauto.
Qed.

(** One call under a clock that does not go back keeps the history in
    order and the sleeps within the period. *)
Lemma ordered_step (w w' : world) (k : tick) (t : Z) :
  t <= now_at k -> now_at k <= stamp_at k ->
  in_order_until t w -> sleeps_within_period w ->
  run (wait_if_needed k) w = inr (tt, w') ->
  in_order_until (stamp_at k) w' /\ sleeps_within_period w'
  /\ period (self w') = period (self w)
  /\ max_calls (self w') = max_calls (self w).
Proof.
  unfold in_order_until, sleeps_within_period.
  intros Ht Hk [Hs Hle] Hsl Hrun.
  assert (Hps : StronglySorted Z.le (pruned w (now_at k)))
    by (apply sorted_filter; exact Hs).
  assert (Hpl : Forall (fun c => c <= t) (pruned w (now_at k)))
    by (apply forall_filter; exact Hle).
  destruct (Z.lt_ge_cases (Z.of_nat (List.length (pruned w (now_at k))))
                          (max_calls (self w))) as [Hlt|Hge].
  - rewrite (run_below_limit w k Hlt) in Hrun. injection Hrun as <-. cbn.
    repeat split; auto.
    + apply sorted_snoc; [exact Hps|].
      eapply Forall_impl; [|exact Hpl]. cbn. intros; lia.
    + apply Forall_app. split.
      * eapply Forall_impl; [|exact Hpl]. cbn. intros; lia.
      * constructor; [lia | constructor].
  - pose proof (run_at_limit_empty w k Hge) as E1.
    pose proof (fun c0 rest => run_at_limit w k c0 rest Hge) as E2.
    pose proof (pruned_head_wait w (now_at k)) as Hpos.
    destruct (pruned w (now_at k)) as [|c0 rest].
    + rewrite (E1 eq_refl) in Hrun. discriminate.
    + specialize (Hpos c0 rest eq_refl).
      rewrite (E2 c0 rest eq_refl) in Hrun. injection Hrun as <-. cbn.
      inversion Hpl; subst.
      repeat split; auto.
      * constructor; constructor.
      * constructor; [lia | constructor].
      * apply Forall_app. split; [exact Hsl|]. constructor; [lia | constructor].
Qed.

Lemma ordered_run (ks : list tick) :
  forall w w' t,
    chronological t ks ->
    in_order_until t w -> sleeps_within_period w ->
    runs_to ks w w' ->
    (exists t', in_order_until t' w') /\ sleeps_within_period w'
    /\ period (self w') = period (self w).
Proof.
  unfold runs_to. induction ks as [|k ks IH]; intros w w' t Hc Ho Hs Hrun.
  - cbn in Hrun. injection Hrun as <-. split; [exists t; exact Ho | split; [exact Hs | reflexivity]].
  - rewrite run_wait_all_cons in Hrun. destruct Hc as (Ht & Hk & Hc).
    destruct (run (wait_if_needed k) w) as [e|[[] w1]] eqn:H1; [discriminate|].
    destruct (ordered_step w w1 k t Ht Hk Ho Hs H1) as (Ho1 & Hs1 & Hp1 & _).
    rewrite <- Hp1. apply (IH w1 w' (stamp_at k) Hc Ho1 Hs1 Hrun).
Qed.

Lemma fresh_in_order (mc p t : Z) :
  in_order_until t (fresh mc p) /\ sleeps_within_period (fresh mc p).
Proof. repeat split; constructor. Qed.

(** X1: under a clock that never goes back, the history of a limiter is
    always in chronological order: after any sequence of calls that
    return, [self.calls] is sorted, so that [calls[0]], from which the wait
    is computed, is its oldest timestamp. *)
Theorem history_is_chronological (mc p t0 : Z) (ks : list tick) (w' : world) :
  chronological t0 ks ->
  runs_to ks (fresh mc p) w' ->
  StronglySorted Z.le (calls (self w'))
  /\ forall c0 rest, calls (self w') = c0 :: rest -> Forall (fun c => c0 <= c) rest.
Proof.
  intros Hc Hrun.
  destruct (fresh_in_order mc p t0) as [Ho Hs].
  destruct (ordered_run ks _ _ _ Hc Ho Hs Hrun) as [[t' [Hsorted _]] _].
  split; [exact Hsorted|]. intros c0 rest Heq. rewrite Heq in Hsorted.
  apply StronglySorted_inv in Hsorted. tauto.
Qed.

Lemma history_is_chronological_witness :
  StronglySorted Z.le [12; 13]
  /\ forall c0 rest, [12; 13] = c0 :: rest -> Forall (fun c => c0 <= c) rest.
Proof.
  apply (history_is_chronological 2 10 0
           [mkTick 0 0; mkTick 1 1; mkTick 2 12; mkTick 13 13]
           (mkWorld (mk 2 10 [12; 13]) [8])).
  - cbn. lia.
  - reflexivity.
Defined.

(** X2: under a clock that never goes back, no call ever sleeps longer
    than the period: every duration passed to [time.sleep] is positive and
    at most [period]. *)
Theorem sleeps_are_within_period (mc p t0 : Z) (ks : list tick) (w' : world) :
  chronological t0 ks ->
  runs_to ks (fresh mc p) w' ->
  Forall (fun d => 0 < d <= p) (slept w').
Proof.
  intros Hc Hrun.
  destruct (fresh_in_order mc p t0) as [Ho Hs].
  destruct (ordered_run ks _ _ _ Hc Ho Hs Hrun) as (_ & Hsl & Hp).
  unfold sleeps_within_period in Hsl. rewrite Hp in Hsl. exact Hsl.
Qed.

Lemma sleeps_are_within_period_witness : Forall (fun d => 0 < d <= 10) [8].
Proof.
  apply (sleeps_are_within_period 2 10 0
           [mkTick 0 0; mkTick 1 1; mkTick 2 12; mkTick 13 13]
           (mkWorld (mk 2 10 [12; 13]) [8])).
  - cbn. lia.
  - reflexivity.
Defined.


Lemma chronological_weaken (ks : list tick) (t t' : Z) :
  t' <= t -> chronological t ks -> chronological t' ks.
Proof. destruct ks as [|k ks]; cbn; [auto|]. intros. repeat split; try tauto. lia. Qed.






(** X5: after a quiet period the limiter starts afresh.  When every
    recorded timestamp is at least one period old, a call on a limiter with
    [max_calls >= 1] does not sleep, and the history becomes the timestamp
    of that call alone. *)
Theorem quiet_period_resets (w : world) (k : tick) :
  1 <= max_calls (self w) ->
  Forall (fun c => c + period (self w) <= now_at k) (calls (self w)) ->
  run (wait_if_needed k) w = inr (tt, with_calls w [stamp_at k]).
Proof.
  intros Hmc Hold.
  assert (Hp : pruned w (now_at k) = []).
  { unfold pruned. apply filter_none. eapply Forall_impl; [|exact Hold].
    cbn. intros c Hc. rewrite Z.gtb_ltb. apply Z.ltb_ge. lia. }
  rewrite run_below_limit; rewrite Hp; [reflexivity | cbn; lia].
Qed.

Lemma quiet_period_resets_witness :
  run (wait_if_needed (mkTick 11 11)) (mkWorld (mk 2 10 [0; 1]) [])
  = inr (tt, mkWorld (mk 2 10 [11]) []).
Proof.
  apply (quiet_period_resets (mkWorld (mk 2 10 [0; 1]) []) (mkTick 11 11)).
  - cbn. lia.
  - cbn. repeat constructor; lia.
Defined.

(** X6: the decorator limits exactly as [wait_if_needed] does.  A call of
    a decorated function changes the limiter, and sleeps, as
    [wait_if_needed] would at the same clock readings, then hands back
    the outcome of the function unchanged; the call is counted even when
    the function raises.  When the limiter itself raises, so does the
    call. *)
Theorem decorator_is_wait_if_needed {A : Type} (func : sum exn A) (k : tick) (w : world) :
  run (Decorator.wrapper func k) w =
  match run (wait_if_needed k) w with
  | inl e => inl e
  | inr (_, w') => inr (func, w')
  end.
Proof.
  rewrite run_wait_if_needed, run_throttle.
  unfold run, Decorator.wrapper, pruned, with_calls.
  destruct w as [[mc p cs] sl]. cbn.
  destruct (Z.of_nat _ >=? mc); [|reflexivity].
  destruct (filter _ cs) as [|c0 rest]; [reflexivity|]. cbn.
  destruct (p - (now_at k - c0) >? 0); [|reflexivity].
  unfold time_sleep. destruct (p - (now_at k - c0) <? 0); reflexivity.
Qed.

End RateLimiterMore.

(** ** More on the converters *)

Module ConverterMore.
Import ConverterFacts.
Local Open Scope string_scope.







(** X10: thousands separators and surrounding whitespace do not change
    the number.  For a field without a date suffix, two values that are
    not null and have the same cleaned text (commas removed, then
    stripped) give the same [int] or [float]. *)
Theorem same_clean_same_number (f v v' : string) (x : value) :
  has_date_suffix f = false ->
  is_null v = false -> is_null v' = false ->
  clean v = clean v' ->
  (exists n, x = VInt n) \/ (exists y, x = VFloat y) ->
  convert_field f v = inr x ->
  convert_field f v' = inr x.
Proof.
  intros Hd Hn Hn' Hc Hx.
  rewrite !convert_field_spec, Hn, Hn', Hd, !numeric_or_string_spec. cbn [andb].
  destruct (category_of (Str.upper f)) as [pattern_type|].
  - destruct (is_integer_category pattern_type) eqn:Hi.
    + rewrite !(convert_number_int _ _ Hi), <- Hc.
      destruct (Py.float (clean v)) as [e|[sg|sg| |sg m ex]]; cbn; intros H;
        inversion H; subst; try reflexivity;
        destruct Hx as [[n Hx]|[y Hx]]; discriminate.
    + rewrite !(convert_number_float _ _ Hi), <- Hc.
      destruct (Py.float (clean v)) as [e|y0]; intros H; inversion H; subst;
        [destruct Hx as [[n Hx]|[y Hx]]; discriminate | reflexivity].
  - intros H. inversion H. subst. destruct Hx as [[n Hx]|[y Hx]]; discriminate.
Qed.

Lemma same_clean_same_number_witness :
  convert_field "ACC_TRDVOL" "1234567" = inr (VInt 1234567).
Proof.
  apply (same_clean_same_number "ACC_TRDVOL" " 1,234,567 " "1234567" (VInt 1234567)).
  - reflexivity.
  - reflexivity.
  - reflexivity.
  - reflexivity.
  - left. exists 1234567. reflexivity.
  - vm_compute. reflexivity.
Defined.

Lemma convert_each_of_forall2 (items : list (string * string))
    (out : list (string * value)) :
  Forall2 (fun item res => fst res = fst item
                           /\ convert_field (fst item) (snd item) = inr (snd res))
          items out ->
  convert_each items = inr out.
Proof.
  induction 1 as [|[f v] [k x] items out [Hk Hx] _ IH]; cbn in *; [reflexivity|].
  subst k. rewrite Hx, IH. reflexivity.
Qed.

(** X11: [convert_record] converts field by field.  On a dict (distinct
    keys) it returns [out] exactly when [out] has the same fields in the
    same order and under each one the value that [convert_field] returns
    for it; in particular it returns only if every field converts. *)
Theorem convert_record_field_by_field (record : list (string * string))
    (out : list (string * value)) :
  NoDup (keys record) ->
  (convert_record record = inr out
   <-> Forall2 (fun item res => fst res = fst item
                                /\ convert_field (fst item) (snd item) = inr (snd res))
               record out).
Proof.
  intros Hnd. rewrite (ConverterClaims.convert_record_each record Hnd). split.
  - intros H. apply (ConverterClaims.convert_each_inr record out H).
  - apply convert_each_of_forall2.
Qed.

Lemma convert_record_field_by_field_witness :
  convert_record [("BAS_DD", "20240101"); ("IDX_NM", "KOSPI")]
  = inr [("BAS_DD", VDatetime (Py.mkDatetime 2024 1 1)); ("IDX_NM", VStr "KOSPI")]
  <-> Forall2 (fun item res => fst res = fst item
                               /\ convert_field (fst item) (snd item) = inr (snd res))
              [("BAS_DD", "20240101"); ("IDX_NM", "KOSPI")]
              [("BAS_DD", VDatetime (Py.mkDatetime 2024 1 1)); ("IDX_NM", VStr "KOSPI")].
Proof.
  apply (convert_record_field_by_field
           [("BAS_DD", "20240101"); ("IDX_NM", "KOSPI")]).
  repeat constructor; cbn; intuition discriminate.
Defined.

(** X12: [convert_response] converts record by record.  It returns
    [outs] exactly when [outs] lists, in the order of the input, what
    [convert_record] returns for each record; so the output has the length
    of the input, and there is an output only if every record converts. *)
Theorem convert_response_record_by_record (data : list (list (string * string)))
    (outs : list (list (string * value))) :
  convert_response data = inr outs
  <-> Forall2 (fun record out => convert_record record = inr out) data outs.
Proof.
  split.
  - intros H. apply (ConverterClaims.convert_response_inr data outs H).
  - induction 1 as [|record out data outs Hr _ IH]; cbn; [reflexivity|].
    rewrite Hr, IH. reflexivity.
Qed.

Lemma convert_items_raises (items : list (string * string)) :
  forall acc e,
    convert_items items acc = inl e ->
    exists f v, In (f, v) items /\ convert_field f v = inl e.
Proof.
  induction items as [|[f v] rest IH]; cbn; intros acc e H; [discriminate|].
  destruct (convert_field f v) as [e'|x] eqn:Hx.
  - injection H as ->. exists f, v. auto.
  - destruct (IH _ _ H) as (f' & v' & Hin & Hf). exists f', v'. auto.
Qed.

Lemma convert_response_raises (data : list (list (string * string))) (e : exn) :
  convert_response data = inl e ->
  e = OverflowError
  /\ exists record f v,
       In record data /\ In (f, v) record
       /\ convert_field f v = inl OverflowError.
Proof.
  induction data as [|record rest IH]; cbn; intros H; [discriminate|].
  destruct (convert_record record) as [e'|r] eqn:Hr.
  - injection H as ->. apply convert_items_raises in Hr.
    destruct Hr as (f & v & Hin & Hf).
    pose proof (ConverterClaims.convert_field_raises f v e Hf) as [-> _].
    split; [reflexivity|]. exists record, f, v. auto.
  - destruct (convert_response rest) as [e'|rs]; [|discriminate].
    injection H as ->. destruct (IH eq_refl) as (-> & record' & f & v & Hin & Hi & Hf).
    split; [reflexivity|]. exists record', f, v. auto.
Qed.

(** X13: the only exception out of [convert_response] is the
    [OverflowError] of a field: it is raised by [convert_field] on some
    field of some record of the input, an infinity in a field of an integer
    category. *)
Theorem convert_response_raises_from_a_field (data : list (list (string * string)))
    (e : exn) :
  convert_response data = inl e ->
  e = OverflowError
  /\ exists record f v,
       In record data /\ In (f, v) record
       /\ convert_field f v = inl OverflowError.
Proof. apply convert_response_raises. Qed.

Lemma convert_response_raises_from_a_field_witness :
  OverflowError = OverflowError
  /\ exists record f v,
       In record [[("IDX_NM", "KOSPI")]; [("ACC_TRDVOL", "inf")]]
       /\ In (f, v) record
       /\ convert_field f v = inl OverflowError.
Proof.
  apply (convert_response_raises_from_a_field
           [[("IDX_NM", "KOSPI")]; [("ACC_TRDVOL", "inf")]] OverflowError).
  vm_compute. reflexivity.
Defined.

End ConverterMore.

(** ** The logger *)

Module LoggerFacts.
Import Logger.
Local Open Scope string_scope.

Lemma set_logger_same (reg : registry) (name : string) (l : logger) :
  set_logger reg name l name = l.
Proof. unfold set_logger. rewrite String.eqb_refl. reflexivity. Qed.

Lemma set_logger_other (reg : registry) (name other : string) (l : logger) :
  other <> name -> set_logger reg name l other = reg other.
Proof.
  intros H. unfold set_logger. destruct (String.eqb_spec other name); [tauto | reflexivity].
Qed.

Lemma setup_logger_level (name : string) (lvl : Z) (reg : registry) :
  level (setup_logger name lvl reg name) = lvl.
Proof.
  unfold setup_logger. rewrite set_logger_same. cbn.
  destruct (handlers (reg name)); reflexivity.
Qed.

Lemma setup_logger_handlers (name : string) (lvl : Z) (reg : registry) :
  handlers (setup_logger name lvl reg name)
  = match handlers (reg name) with
    | [] => [stdout_handler]
    | hs => hs
    end.
Proof.
  unfold setup_logger. rewrite set_logger_same. cbn.
  destruct (handlers (reg name)); reflexivity.
Qed.

Lemma setup_logger_other (name other : string) (lvl : Z) (reg : registry) :
  other <> name -> setup_logger name lvl reg other = reg other.
Proof. intros H. unfold setup_logger. apply set_logger_other, H. Qed.

Lemma setup_all_configured (name : string) (lvls : list Z) :
  forall reg,
    handlers (reg name) <> [] ->
    handlers (setup_all name lvls reg name) = handlers (reg name).
Proof.
  induction lvls as [|lvl rest IH]; intros reg Hh; cbn; [reflexivity|].
  assert (Hstep : handlers (setup_logger name lvl reg name) = handlers (reg name)).
  { rewrite setup_logger_handlers. destruct (handlers (reg name)); [tauto | reflexivity]. }
  rewrite IH; [exact Hstep | rewrite Hstep; exact Hh].
Qed.

(** X14: [setup_logger] never stacks handlers.  However many times it is
    called for a name, a logger that had no handler ends with the one
    stdout handler, and a logger that had handlers keeps exactly those. *)
Theorem setup_logger_adds_one_handler (name : string) (lvl : Z) (lvls : list Z)
    (reg : registry) :
  (handlers (reg name) = [] ->
   handlers (setup_all name (lvl :: lvls) reg name) = [stdout_handler])
  /\ (handlers (reg name) <> [] ->
      handlers (setup_all name (lvl :: lvls) reg name) = handlers (reg name)).
Proof.
  split.
  - intros Hnone. cbn [setup_all].
    rewrite setup_all_configured; rewrite setup_logger_handlers, Hnone;
      [reflexivity | discriminate].
  - intros Hsome. apply setup_all_configured, Hsome.
Qed.

Lemma last_default (l : list Z) (x d d' : Z) :
  last (x :: l) d = last (x :: l) d'.
Proof.
  revert x. induction l as [|y l IH]; intros x; [reflexivity|].
  cbn [last] in *. apply IH.
Qed.

Lemma setup_all_level (name : string) (lvls : list Z) :
  forall reg,
    level (setup_all name lvls reg name) = last lvls (level (reg name)).
Proof.
  induction lvls as [|lvl rest IH]; intros reg; [reflexivity|].
  cbn [setup_all]. rewrite IH, setup_logger_level.
  destruct rest as [|z rest]; [reflexivity|].
  cbn [last]. apply last_default.
Qed.

Lemma setup_all_other (name other : string) (lvls : list Z) :
  other <> name ->
  forall reg, setup_all name lvls reg other = reg other.
Proof.
  intros H. induction lvls as [|lvl rest IH]; intros reg; [reflexivity|].
  cbn [setup_all]. rewrite IH. apply setup_logger_other, H.
Qed.

(** X15: every call of [setup_logger] sets the level, also on a logger
    that is already set up: after a series of calls the level is the one of
    the last call, and no other logger of the process is touched. *)
Theorem setup_logger_last_level_wins (name : string) (lvl : Z) (lvls : list Z)
    (reg : registry) :
  level (setup_all name (lvl :: lvls) reg name) = last (lvl :: lvls) lvl
  /\ forall other, other <> name ->
       setup_all name (lvl :: lvls) reg other = reg other.
Proof.
  split.
  - rewrite setup_all_level. apply last_default.
  - intros other H. apply setup_all_other, H.
Qed.

End LoggerFacts.

(** ** The client *)

Module ClientFacts.
Import Exceptions Client.
Local Open Scope string_scope.

(** X16: the API key of a client.  [KRXOpenAPI(...)] raises, and then a
    [ValueError], exactly when neither the parameter nor the environment
    gives a non-empty key; otherwise the client holds a non-empty key, the
    parameter when it is a non-empty string and the environment variable if
    not, with a limiter [(rate_limit, per_seconds)] that has no history and
    no request sent. *)
Theorem init_needs_a_key (api_key env_key : option string)
    (rate_limit per_seconds timeout : Z) (debug : bool) (reg : Logger.registry) :
  match init api_key env_key rate_limit per_seconds timeout debug reg with
  | inl e =>
      e = ValueError
      /\ (api_key = None \/ api_key = Some "")
      /\ (env_key = None \/ env_key = Some "")
  | inr (client, _) =>
      Client.api_key client <> ""
      /\ (forall s, api_key = Some s -> s <> "" -> Client.api_key client = s)
      /\ (api_key = None \/ api_key = Some "" -> env_key = Some (Client.api_key client))
      /\ rate_limiter client = RateLimiter.fresh rate_limit per_seconds
      /\ sent client = []
  end.
Proof.
  unfold init, py_or, py_not.
  destruct api_key as [a|].
  - destruct (String.eqb_spec a "") as [->|Ha].
    + destruct env_key as [b|]; [|auto].
      destruct (String.eqb_spec b "") as [->|Hb]; [auto|].
      cbn. repeat split; auto. intros s Hs Hne. congruence.
    + cbn. replace (a =? "") with false by (symmetry; apply String.eqb_neq, Ha).
      cbn. repeat split; auto.
      * intros s Hs _. congruence.
      * intros [H|H]; congruence.
  - destruct env_key as [b|]; [|auto].
    destruct (String.eqb_spec b "") as [->|Hb]; [auto|].
    cbn. repeat split; auto. intros s Hs. discriminate.
Qed.

(** X17: the clients of a process share one logger.  When a client is
    created after another one, the logger ["pykrx_openapi"] keeps the
    handlers it had, without a second one, and takes the level of the new
    client: [DEBUG] if it was created with [debug], [INFO] if not. *)
Theorem second_client_resets_log_level
    (key1 env1 key2 env2 : option string) (rl1 ps1 to1 rl2 ps2 to2 : Z)
    (debug1 debug2 : bool) (reg reg1 reg2 : Logger.registry)
    (client1 client2 : KRXOpenAPI) :
  init key1 env1 rl1 ps1 to1 debug1 reg = inr (client1, reg1) ->
  init key2 env2 rl2 ps2 to2 debug2 reg1 = inr (client2, reg2) ->
  Logger.handlers (reg1 "pykrx_openapi") <> []
  /\ Logger.handlers (reg2 "pykrx_openapi") = Logger.handlers (reg1 "pykrx_openapi")
  /\ Logger.level (reg2 "pykrx_openapi")
     = (if debug2 then Logger.DEBUG else Logger.INFO).
Proof.
  unfold init. intros H1 H2.
  destruct (py_not (py_or key1 env1)); [discriminate|].
  destruct (py_or key1 env1) as [k1|]; [|discriminate].
  destruct (py_not (py_or key2 env2)); [discriminate|].
  destruct (py_or key2 env2) as [k2|]; [|discriminate].
  injection H1 as _ <-. injection H2 as _ <-.
  rewrite LoggerFacts.setup_logger_level, !LoggerFacts.setup_logger_handlers.
  destruct (Logger.handlers (reg "pykrx_openapi")) as [|h hs];
    repeat split; discriminate.
Qed.

Lemma second_client_resets_log_level_witness :
  Logger.handlers (Logger.setup_logger "pykrx_openapi" Logger.DEBUG Logger.no_loggers
                     "pykrx_openapi") <> []
  /\ Logger.handlers
       (Logger.setup_logger "pykrx_openapi" Logger.INFO
          (Logger.setup_logger "pykrx_openapi" Logger.DEBUG Logger.no_loggers)
          "pykrx_openapi")
     = Logger.handlers (Logger.setup_logger "pykrx_openapi" Logger.DEBUG Logger.no_loggers
                          "pykrx_openapi")
  /\ Logger.level
       (Logger.setup_logger "pykrx_openapi" Logger.INFO
          (Logger.setup_logger "pykrx_openapi" Logger.DEBUG Logger.no_loggers)
          "pykrx_openapi")
     = Logger.INFO.
Proof.
  apply (second_client_resets_log_level
           (Some "key-1") None None (Some "key-2") 10 1 30 5 2 60 true false
           Logger.no_loggers
           (Logger.setup_logger "pykrx_openapi" Logger.DEBUG Logger.no_loggers)
           (Logger.setup_logger "pykrx_openapi" Logger.INFO
              (Logger.setup_logger "pykrx_openapi" Logger.DEBUG Logger.no_loggers))
           (mkClient "key-1" 30 (RateLimiter.fresh 10 1) [])
           (mkClient "key-2" 60 (RateLimiter.fresh 5 2) [])).
  - reflexivity.
  - reflexivity.
Defined.
















End ClientFacts.

(** ** The endpoint methods *)

Module MethodFacts.
Import Client Methods Endpoints.
Local Open Scope string_scope.

(** X23: the methods and the table of endpoints agree.  The thirty-one
    [get_...] methods are, in order, the requests for the thirty-one paths
    of [ENDPOINTS], each under the category that the table gives for it,
    and no path occurs twice: every endpoint of the table has its method
    and no method asks for anything else. *)
Theorem methods_follow_the_table :
  all_methods = table_calls
  /\ List.length ENDPOINTS = 31%nat
  /\ NoDup (map fst ENDPOINTS).
Proof.
  split; [reflexivity|]. split; [reflexivity|].
  cbn. repeat constructor; cbn; intuition discriminate.
Qed.

End MethodFacts.

(** ** More runs on concrete inputs *)

Module MoreExamples.
Import Exceptions Client.
Local Open Scope string_scope.

Example date_formats :
  date_format_ok "20240101" = true
  /\ date_format_ok "99999999" = true
  /\ date_format_ok (String.append "20240101" (String "010" EmptyString)) = true
  /\ date_format_ok "2024-01-01" = false
  /\ date_format_ok "20241" = false
  /\ date_format_ok " 20240101" = false.
Proof. repeat split. Qed.

Example server_error_message :
  fst (_make_request (mkClient "test-key" 30 (RateLimiter.fresh 10 1) [])
         "idx" "kospi_dd_trd" "20240101" (RateLimiter.mkTick 0 0)
         (Response (mkResponse 500 "Internal Server Error" "500 Server Error"
                      (inl "no JSON"))))
  = inl (KRX KRXServerError "Server error: 500 - Internal Server Error").
Proof. vm_compute. reflexivity. Qed.

Example timeout_message :
  fst (_make_request (mkClient "test-key" 30 (RateLimiter.fresh 10 1) [])
         "idx" "kospi_dd_trd" "20240101" (RateLimiter.mkTick 0 0)
         (Timeout "Request timed out"))
  = inl (KRX KRXNetworkError "Request timeout after 30s").
Proof. vm_compute. reflexivity. Qed.

Example converted_answer :
  fst (Methods.get_kospi_daily_trade
         (mkClient "test-key" 30 (RateLimiter.fresh 10 1) [])
         "20240101" (RateLimiter.mkTick 0 0)
         (Response (mkResponse 200 "" ""
                      (inr (mkPayload
                              (Some [[("BAS_DD", "20240101"); ("ACC_TRDVOL", "123456")]])
                              [])))))
  = inr (mkResult [[("BAS_DD", VDatetime (Py.mkDatetime 2024 1 1));
                    ("ACC_TRDVOL", VInt 123456)]] []).
Proof. vm_compute. reflexivity. Qed.

Example no_key_no_client :
  init None None 10 1 30 false Logger.no_loggers = inl ValueError
  /\ init (Some "") (Some "") 10 1 30 false Logger.no_loggers = inl ValueError.
Proof. split; reflexivity. Qed.

Example every_class_is_an_api_error :
  forallb (fun c => issubclass c KRXAPIError)
          [KRXAPIError; KRXAuthenticationError; KRXRateLimitError;
           KRXInvalidDateError; KRXNetworkError; KRXServerError] = true.
Proof. reflexivity. Qed.

(** A decorated function that raises still takes its slot. *)
Example failing_function_is_counted :
  RateLimiter.run (Decorator.wrapper (inl ValueError : sum exn unit)
                     (RateLimiter.mkTick 0 0))
                  (RateLimiter.fresh 2 10)
  = inr (inl ValueError, RateLimiter.mkWorld (RateLimiter.mk 2 10 [0]) []).
Proof. reflexivity. Qed.

End MoreExamples.
